(** * mc: request signing (minio-go, signature V2 and V4) and resumable sessions

    A shallow embedding of the signing code of the vendored minio-go
    library (request-signature-v2 / request-signature-v4) and of the
    version-6 session store of mc, with the properties of the
    specification stated over it.

    Layout: part I holds the embedding (definitions only), part II the
    lemmas and theorems. *)

From Stdlib Require Import ZArith Ascii String.
From stdpp Require Import base option list gmap strings sorting pretty.


(* ===================================================================== *)
(** * Part I: the embedding                                               *)
(* ===================================================================== *)

(** ** Outcomes

    [fatalIf] prints its message and terminates the process when it is
    handed an error; a call that reaches it with an error never returns
    to its caller. *)

Inductive outcome (A : Type) : Type :=
| Returns (a : A)
| Fatal (msg : string).
Arguments Returns {A} a.
Arguments Fatal {A} msg.

(** Go's [(value, error)] pairs. *)
Inductive result (A : Type) : Type :=
| Ok (a : A)
| Err (e : string).
Arguments Ok {A} a.
Arguments Err {A} e.

(* --------------------------------------------------------------------- *)
(** ** Go strings and the pieces of net/http and net/url the code calls   *)
(* --------------------------------------------------------------------- *)

(** A Go string is a sequence of bytes; so is a [string] here.  Header
    field names and the keys compared below are ASCII, where
    [strings.ToLower] maps 'A'..'Z' to 'a'..'z' and leaves every other
    byte alone. *)

Definition isUpperByte (c : ascii) : bool :=
  let n := N_of_ascii c in (65 <=? n)%N && (n <=? 90)%N.
Definition isLowerByte (c : ascii) : bool :=
  let n := N_of_ascii c in (97 <=? n)%N && (n <=? 122)%N.
Definition isDigitByte (c : ascii) : bool :=
  let n := N_of_ascii c in (48 <=? n)%N && (n <=? 57)%N.
Definition toLowerByte (c : ascii) : ascii :=
  if isUpperByte c then ascii_of_N (N_of_ascii c + 32) else c.
Definition toUpperByte (c : ascii) : ascii :=
  if isLowerByte c then ascii_of_N (N_of_ascii c - 32) else c.

Fixpoint mapBytes (f : ascii → ascii) (s : string) : string :=
  match s with
  | EmptyString => EmptyString
  | String c s' => String (f c) (mapBytes f s')
  end.

Fixpoint allBytes (f : ascii → bool) (s : string) : bool :=
  match s with
  | EmptyString => true
  | String c s' => f c && allBytes f s'
  end.

Definition ToLower (s : string) : string := mapBytes toLowerByte s.

(** [strings.Join]. *)
Definition Join (elems : list string) (sep : string) : string :=
  String.concat sep elems.

(** [strings.HasPrefix], [strings.TrimSuffix]. *)
Definition HasPrefix (s prefix : string) : bool := String.prefix prefix s.

Fixpoint stripPrefix (prefix s : string) : option string :=
  match prefix with
  | EmptyString => Some s
  | String a p' =>
      match s with
      | EmptyString => None
      | String b s' => if Ascii.eqb a b then stripPrefix p' s' else None
      end
  end.

Definition TrimSuffix (s suffix : string) : string :=
  match stripPrefix (String.rev suffix) (String.rev s) with
  | Some r => String.rev r
  | None => s
  end.

(** [strings.Replace(s, "+", "%20", -1)]. *)
Fixpoint replacePlus (s : string) : string :=
  match s with
  | EmptyString => EmptyString
  | String c s' =>
      if Ascii.eqb c "+" then "%20" +:+ replacePlus s'
      else String c (replacePlus s')
  end.

(** [sort.Strings]: ascending byte-wise order.  Equal strings are the
    same string, so every sorting algorithm has the same result. *)
Definition sortStrings (l : list string) : list string :=
  merge_sort String.le l.

(** The token bytes of a header field name (net/textproto). *)
Definition validHeaderFieldByte (c : ascii) : bool :=
  isUpperByte c || isLowerByte c || isDigitByte c ||
  bool_decide (c ∈ ["!"; "#"; "$"; "%"; "&"; "'"; "*"; "+"; "-"; ".";
                    "^"; "_"; "`"; "|"; "~"]%char).

(** [http.CanonicalHeaderKey]: a key made of token bytes gets its first
    letter and every letter after a hyphen in upper case and the other
    letters in lower case; any other key is returned as it is. *)
Fixpoint canonicalMIMEHeaderKey (upper : bool) (s : string) : string :=
  match s with
  | EmptyString => EmptyString
  | String c s' =>
      let c' := if upper then toUpperByte c else toLowerByte c in
      String c' (canonicalMIMEHeaderKey (Ascii.eqb c' "-") s')
  end.

Definition CanonicalHeaderKey (s : string) : string :=
  if allBytes validHeaderFieldByte s then canonicalMIMEHeaderKey true s else s.

(** [http.Header] is [map[string][]string]; [Get] and [Set] canonicalise
    the key they are given. *)
Definition Header_Get (h : gmap string (list string)) (key : string) : string :=
  match h !! CanonicalHeaderKey key with
  | Some (v :: _) => v
  | _ => ""
  end.

Definition Header_Set (h : gmap string (list string)) (key value : string)
  : gmap string (list string) :=
  <[CanonicalHeaderKey key := [value]]> h.

(** Indexing a Go map: the zero value when the key is absent. *)
Definition valuesAt (m : gmap string (list string)) (k : string) : list string :=
  default [] (m !! k).

(** net/url: percent-decoding and encoding of query components. *)
Definition unhex (c : ascii) : option N :=
  let n := N_of_ascii c in
  if isDigitByte c then Some (n - 48)%N
  else if (97 <=? n)%N && (n <=? 102)%N then Some (n - 87)%N
  else if (65 <=? n)%N && (n <=? 70)%N then Some (n - 55)%N
  else None.

Definition upperhex (n : N) : ascii :=
  if (n <? 10)%N then ascii_of_N (48 + n) else ascii_of_N (55 + n).

Fixpoint QueryUnescape (s : string) : option string :=
  match s with
  | EmptyString => Some EmptyString
  | String c rest =>
      if Ascii.eqb c "%" then
        match rest with
        | String a (String b rest') =>
            match unhex a, unhex b with
            | Some x, Some y =>
                String (ascii_of_N (16 * x + y)) <$> QueryUnescape rest'
            | _, _ => None
            end
        | _ => None
        end
      else if Ascii.eqb c "+" then String " " <$> QueryUnescape rest
      else String c <$> QueryUnescape rest
  end.

Definition shouldEscape (c : ascii) : bool :=
  negb (isUpperByte c || isLowerByte c || isDigitByte c ||
        bool_decide (c ∈ ["-"; "_"; "."; "~"]%char)).

Fixpoint QueryEscape (s : string) : string :=
  match s with
  | EmptyString => EmptyString
  | String c rest =>
      if Ascii.eqb c " " then String "+" (QueryEscape rest)
      else if shouldEscape c then
        let n := N_of_ascii c in
        String "%" (String (upperhex (n / 16)) (String (upperhex (n mod 16))
          (QueryEscape rest)))
      else String c (QueryEscape rest)
  end.

(** Splitting at a separator byte ([strings.Split] with a one-byte
    separator) and cutting at the first occurrence ([strings.Cut]). *)
Fixpoint splitAt (sep : ascii) (s : string) : list string :=
  match s with
  | EmptyString => [EmptyString]
  | String c rest =>
      if Ascii.eqb c sep then EmptyString :: splitAt sep rest
      else match splitAt sep rest with
           | [] => [String c EmptyString]
           | w :: ws => String c w :: ws
           end
  end.

Fixpoint cutAt (sep : ascii) (s : string) : string * string :=
  match s with
  | EmptyString => (EmptyString, EmptyString)
  | String c rest =>
      if Ascii.eqb c sep then (EmptyString, rest)
      else let '(a, b) := cutAt sep rest in (String c a, b)
  end.

Fixpoint containsByte (sep : ascii) (s : string) : bool :=
  match s with
  | EmptyString => false
  | String c rest => Ascii.eqb c sep || containsByte sep rest
  end.

(** [url.ParseQuery], errors dropped as the callers drop them: pairs are
    separated by '&'; a pair with a semicolon or a bad escape is
    skipped; values of a repeated key are appended in order. *)
Definition parsePair (m : gmap string (list string)) (pair : string)
  : gmap string (list string) :=
  if decide (pair = "") then m
  else if containsByte ";" pair then m
  else
    let '(key, value) := cutAt "=" pair in
    match QueryUnescape key, QueryUnescape value with
    | Some key', Some value' => <[key' := valuesAt m key' ++ [value']]> m
    | _, _ => m
    end.

Definition ParseQuery (query : string) : gmap string (list string) :=
  if decide (query = "") then ∅
  else fold_left parsePair (splitAt "&" query) ∅.

(** [url.Values.Encode]: keys in sorted order, each value as
    [key=value], joined by '&'. *)
Definition Values_Encode (v : gmap string (list string)) : string :=
  Join (flat_map (λ k, (λ x, QueryEscape k +:+ "=" +:+ QueryEscape x) <$> valuesAt v k)
                 (sortStrings (map fst (map_to_list v)))) "&".

(* --------------------------------------------------------------------- *)
(** ** Resume filter: [isCopiedFactory] (session-v6.go)                   *)
(* --------------------------------------------------------------------- *)

(** The closure returned by [isCopiedFactory lastCopied] owns one mutable
    variable, [copied], initialised to [true].  A call of the closure is
    a transition on that variable: it takes the current [copied] and the
    argument and yields the returned bool together with the new
    [copied], or is fatal on an empty argument. *)

Definition isCopied (lastCopied : string) (copied : bool) (sourceURL : string)
  : outcome (bool * bool) :=
  if decide (sourceURL = "") then Fatal "Empty source argument passed."
  else if decide (lastCopied = "") then Returns (false, copied)
  else if copied then
         if decide (lastCopied = sourceURL) then Returns (true, false)
         else Returns (true, copied)
       else Returns (false, copied).

(** Initial value of the captured variable. *)
Definition isCopiedFactory (lastCopied : string) : bool := true.

(** Calling the closure on the items of a replayed sequence, in order,
    collecting what the calls return.  A fatal call ends the process. *)
Fixpoint replayFrom (lastCopied : string) (copied : bool) (items : list string)
  : outcome (list bool) :=
  match items with
  | [] => Returns []
  | u :: rest =>
      match isCopied lastCopied copied u with
      | Fatal m => Fatal m
      | Returns (b, copied') =>
          match replayFrom lastCopied copied' rest with
          | Fatal m => Fatal m
          | Returns bs => Returns (b :: bs)
          end
      end
  end.

Definition replay (lastCopied : string) (items : list string) : outcome (list bool) :=
  replayFrom lastCopied (isCopiedFactory lastCopied) items.

(* --------------------------------------------------------------------- *)
(** ** Session store, version 6 (session-v6.go)                           *)
(* --------------------------------------------------------------------- *)

(** [sessionV6Header]: the header record, field for field.  Times are
    seconds since the epoch. *)
Record sessionV6Header : Type := mkHeader {
  Version : string;
  When : Z;
  RootPath : string;
  GlobalBoolFlags : gmap string bool;
  GlobalIntFlags : gmap string Z;
  GlobalStringFlags : gmap string string;
  CommandType : string;
  CommandArgs : list string;
  CommandBoolFlags : gmap string bool;
  CommandIntFlags : gmap string Z;
  CommandStringFlags : gmap string string;
  LastCopied : string;
  TotalBytes : Z;
  TotalObjects : Z
}.

(** The zero value [&sessionV6Header{}]. *)
Definition zeroHeader : sessionV6Header :=
  mkHeader "" 0 "" ∅ ∅ ∅ "" [] ∅ ∅ ∅ "" 0 0.

Definition setVersion (v : string) (h : sessionV6Header) : sessionV6Header :=
  mkHeader v (When h) (RootPath h) (GlobalBoolFlags h) (GlobalIntFlags h)
    (GlobalStringFlags h) (CommandType h) (CommandArgs h) (CommandBoolFlags h)
    (CommandIntFlags h) (CommandStringFlags h) (LastCopied h) (TotalBytes h)
    (TotalObjects h).

(** The operating system, the session directory helpers of mc
    ([isSessionDirExists], [getSessionFile], [getSessionDataFile],
    [getSessionIDs]) and the [quick] configuration package are not part
    of the session code; the session code only calls them.  They are the
    interface [OS]: a type of worlds (everything on disk and every open
    descriptor), a type of open files, and for each call what it answers
    and how it changes the world.  An error is its message; [None] is
    Go's [nil]. *)
Class OS : Type := {
  world : Type;
  file : Type;
  isSessionDirExists : world → bool;
  getSessionFile : string → world → result string;
  getSessionDataFile : string → world → result string;
  getSessionIDs : world → list string;
  os_Stat : string → world → option string;
  os_Open : string → world → result file * world;
  os_Remove : string → world → option string * world;
  file_Sync : file → world → option string * world;
  file_Close : file → world → option string * world;
  file_Name : file → string;
  quick_New : sessionV6Header → option string;
  quick_Load : string → sessionV6Header → world → result sessionV6Header;
  quick_Save : string → sessionV6Header → world → option string * world
}.

Section SessionStore.
Context `{os : OS}.

(** [sessionDataFP]: the data file with its dirty flag. *)
Record sessionDataFP : Type := mkDataFP {
  dirty : bool;
  File : file
}.

(** [sessionV6].  [Header] and [DataFP] are pointers in the source; the
    session value here carries what they point to, and an operation that
    writes through them returns the updated session.  [DataFP] may be
    nil ([None]). *)
Record sessionV6 : Type := mkSession {
  Header : sessionV6Header;
  SessionID : string;
  DataFP : option sessionDataFP;
  sigCh : bool
}.

(** What the session code does to the world, in the order it does it. *)
Inductive event : Type :=
| EvLock
| EvUnlock
| EvStat (path : string)
| EvOpen (path : string)
| EvRemove (path : string) (err : option string)
| EvSync (name : string) (err : option string)
| EvClose (name : string) (err : option string)
| EvLoadHeader (path : string)
| EvSaveHeader (path : string) (h : sessionV6Header) (err : option string)
| EvPrint (msg : string).

(** Computations: a world and the events so far go in; an outcome, the
    new world and the extended events come out. *)
Definition IO (A : Type) : Type :=
  world * list event → outcome A * (world * list event).

Definition io_ret {A} (a : A) : IO A := λ σ, (Returns a, σ).

Definition io_bind {A B} (m : IO A) (k : A → IO B) : IO B :=
  λ σ, match m σ with
       | (Returns a, σ') => k a σ'
       | (Fatal msg, σ') => (Fatal msg, σ')
       end.

Definition io_fatal {A} (msg : string) : IO A := λ σ, (Fatal msg, σ).

(** Modelled from the spec: [fatalIf err msg], which the session file
    calls and does not define.  The spec has such errors "surfaced as
    fatal to the in-flight operation": on nil it does nothing, on an
    error the process ends with the message. *)
Definition fatalIf (err : option string) (msg : string) : IO unit :=
  match err with
  | None => io_ret tt
  | Some _ => io_fatal msg
  end.

Definition io_read {A} (f : world → A) : IO A :=
  λ σ, (Returns (f σ.1), σ).

Definition io_emit (e : event) : IO unit :=
  λ σ, (Returns tt, (σ.1, σ.2 ++ [e])).

(** A call that changes the world and is recorded with its answer. *)
Definition io_call {A} (f : world → A * world) (e : A → event) : IO A :=
  λ σ, let '(a, w') := f σ.1 in (Returns a, (w', σ.2 ++ [e a])).

#[global] Instance io_mret : MRet IO := @io_ret.
#[global] Instance io_mbind : MBind IO := λ A B k m, io_bind m k.

(** [loadSessionV6]. *)
Definition loadSessionV6 (sid : string) : IO (result sessionV6) :=
  dir ← io_read isSessionDirExists;
  if negb dir then mret (Err "Invalid argument.") else
  f ← io_read (getSessionFile sid);
  match f with
  | Err e => mret (Err e)
  | Ok sessionFile =>
  st ← (io_emit (EvStat sessionFile);; io_read (os_Stat sessionFile));
  match st with
  | Some e => mret (Err e)
  | None =>
  let hdr0 := setVersion "5" zeroHeader in
  match quick_New hdr0 with
  | Some e => mret (Err e)
  | None =>
  l ← (io_emit (EvLoadHeader sessionFile);; io_read (quick_Load sessionFile hdr0));
  match l with
  | Err e => mret (Err e)
  | Ok hdr =>
  d ← io_read (getSessionDataFile sid);
  match d with
  | Err e => mret (Err e)
  | Ok sessionDataFile =>
  o ← io_call (os_Open sessionDataFile) (λ _, EvOpen sessionDataFile);
  match o with
  | Err e => io_fatal "Unable to open session data file."
  | Ok dataFile =>
      mret (Ok (mkSession hdr sid (Some (mkDataFP false dataFile)) false))
  end end end end end end.

(** [migrateSessionV5ToV6]: the loop over [getSessionIDs()], whose value
    is taken once, before the first iteration. *)
Fixpoint migrateLoop (sids : list string) : IO unit :=
  match sids with
  | [] => mret tt
  | sid :: rest =>
      r ← loadSessionV6 sid;
      match r with
      | Err e => io_fatal "Unable to load version 6. Migration failed."
      | Ok sessionV6 =>
          if decide (Version (Header sessionV6) = "6") then mret tt
          else
            f ← io_read (getSessionFile sid);
            match f with
            | Err e => io_fatal "Unable to get session file."
            | Ok sessionFile =>
            d ← io_read (getSessionDataFile sid);
            match d with
            | Err e => io_fatal "Unable to get session data file."
            | Ok sessionDataFile =>
            io_emit (EvPrint ("Removing unsupported session file " +:+ sessionFile
                              +:+ " version " +:+ Version (Header sessionV6)));;
            e ← io_call (os_Remove sessionFile) (EvRemove sessionFile);
            fatalIf e "Unable to remove session file.";;
            e ← io_call (os_Remove sessionDataFile) (EvRemove sessionDataFile);
            fatalIf e "Unable to remove session data file.";;
            migrateLoop rest
            end end
      end
  end.

Definition migrateSessionV5ToV6 : IO unit :=
  sids ← io_read getSessionIDs;
  migrateLoop sids.

(** [HasData]. *)
Definition HasData (s : sessionV6) : bool :=
  if decide (LastCopied (Header s) = "") then false else true.

(** The tail shared by [Save] and [Close]: [quick.New], [getSessionFile],
    [qs.Save]. *)
Definition saveHeader (s : sessionV6) : IO (option string) :=
  match quick_New (Header s) with
  | Some e => mret (Some e)
  | None =>
      f ← io_read (getSessionFile (SessionID s));
      match f with
      | Err e => mret (Some e)
      | Ok sessionFile =>
          io_call (quick_Save sessionFile (Header s))
                  (EvSaveHeader sessionFile (Header s))
      end
  end.

(** [defer s.mutex.Unlock()]: the unlock runs when the body returns. *)
Definition locked {A} (body : IO A) : IO A :=
  io_emit EvLock;; a ← body; io_emit EvUnlock;; mret a.

(** [Save]: returns the error, if any, and the session with its dirty
    flag as the call leaves it.  [DataFP] is dereferenced without a nil
    check: on a nil [DataFP] the call panics (the deferred unlock runs,
    then the process dies). *)
Definition Save (s : sessionV6) : IO (option string * sessionV6) :=
  match DataFP s with
  | None => io_emit EvLock;; io_emit EvUnlock;; io_fatal "nil pointer dereference"
  | Some fp =>
      locked (
        if dirty fp then
          e ← io_call (file_Sync (File fp)) (EvSync (file_Name (File fp)));
          match e with
          | Some err => mret (Some err, s)
          | None =>
              let s' := mkSession (Header s) (SessionID s)
                          (Some (mkDataFP false (File fp))) (sigCh s) in
              r ← saveHeader s'; mret (r, s')
          end
        else
          r ← saveHeader s; mret (r, s))
  end.

(** [Close]. *)
Definition Close (s : sessionV6) : IO (option string) :=
  match DataFP s with
  | None => io_emit EvLock;; io_emit EvUnlock;; io_fatal "nil pointer dereference"
  | Some fp =>
      locked (
        e ← io_call (file_Close (File fp)) (EvClose (file_Name (File fp)));
        match e with
        | Some err => mret (Some err)
        | None => saveHeader s
        end)
  end.

(** [Delete]. *)
Definition Delete (s : sessionV6) : IO (option string) :=
  locked (
    e ← match DataFP s with
        | Some fp =>
            let name := file_Name (File fp) in
            io_call (file_Close (File fp)) (EvClose name);;
            io_call (os_Remove name) (EvRemove name)
        | None => mret None
        end;
    match e with
    | Some err => mret (Some err)
    | None =>
        f ← io_read (getSessionFile (SessionID s));
        match f with
        | Err e => mret (Some e)
        | Ok sessionFile => io_call (os_Remove sessionFile) (EvRemove sessionFile)
        end
    end).

(** Running a computation from a world with no events recorded yet. *)
Definition run {A} (m : IO A) (w : world) : outcome A * (world * list event) :=
  m (w, []).

End SessionStore.

(* --------------------------------------------------------------------- *)
(** ** Requests (minio-go)                                                *)
(* --------------------------------------------------------------------- *)

(** The parts of [url.URL] and [http.Request] the signing code reads or
    writes, and the body, which it never mentions. *)
Record URL : Type := mkURL {
  Scheme : string;
  Host : string;
  Path : string;
  RawQuery : string
}.

Record HTTPRequest : Type := mkHTTPRequest {
  Method : string;
  url : URL;
  Header_ : gmap string (list string);
  Body : string
}.

Record Config : Type := mkConfig {
  AccessKeyID : string;
  SecretAccessKey : string;
  Region : string;
  isVirtualHostedStyle : bool
}.

(** minio-go's [Request]: the HTTP request, the configuration and the
    expiry in seconds (an int64; zero for a request that is not
    pre-signed). *)
Record Request : Type := mkRequest {
  req : HTTPRequest;
  config : Config;
  expires : Z
}.

Definition setRawQuery (q : string) (r : Request) : Request :=
  mkRequest
    (mkHTTPRequest (Method (req r))
       (mkURL (Scheme (url (req r))) (Host (url (req r))) (Path (url (req r))) q)
       (Header_ (req r)) (Body (req r)))
    (config r) (expires r).

Definition setHeader (h : gmap string (list string)) (r : Request) : Request :=
  mkRequest (mkHTTPRequest (Method (req r)) (url (req r)) h (Body (req r)))
    (config r) (expires r).

(** int64 arithmetic wraps around. *)
Definition wrap64 (z : Z) : Z := ((z + 2 ^ 63) mod 2 ^ 64 - 2 ^ 63)%Z.

(** What the signing code takes from outside its two files: the hash
    primitives ([sumHMAC], [sum256] of minio-go, crypto/hmac with SHA-1,
    hex and base64), the formatting of instants and integers,
    [getURLEncodedPath], the [regions] table (a Go map: the list is the
    order in which a [range] yields it), [isAnonymous] on a
    configuration, [URL.String] and the order in which a [range] over a
    header map yields its entries, which Go leaves unspecified: any
    enumeration of the entries may occur. *)
Class SignEnv : Type := {
  sumHMAC : string → string → string;
  sum256 : string → string;
  hmacSHA1 : string → string → string;
  hexEncodeToString : string → string;
  base64EncodeToString : string → string;
  timeFormat : string → Z → string;
  FormatInt : Z → string;
  getURLEncodedPath : string → string;
  regions : list (string * string);
  isAnonymous : Config → bool;
  URL_String : URL → string;
  rangeHeader : gmap string (list string) → list (string * list string);
  rangeHeader_perm : ∀ h, rangeHeader h ≡ₚ map_to_list h
}.

(** Hash computations, recorded as the code performs them. *)
Inductive hashEvent : Type :=
| EvHMACSHA256 (key msg : string)
| EvHMACSHA1 (key msg : string)
| EvSHA256 (msg : string).

(** The state the signing code works on: the request behind the
    receiver pointer, the package variable [resourceList] (sorted in
    place by [writeCanonicalizedResource]) and the hash computations
    performed so far. *)
Record signState : Type := mkSignState {
  request : Request;
  resources : list string;
  hashes : list hashEvent
}.

Definition Sign (A : Type) : Type := signState → A * signState.

#[global] Instance sign_mret : MRet Sign := λ A a σ, (a, σ).
#[global] Instance sign_mbind : MBind Sign :=
  λ A B k m σ, let '(a, σ') := m σ in k a σ'.

Definition getRequest : Sign Request := λ σ, (request σ, σ).
Definition putRequest (r : Request) : Sign unit :=
  λ σ, (tt, mkSignState r (resources σ) (hashes σ)).
Definition getResources : Sign (list string) := λ σ, (resources σ, σ).
Definition putResources (l : list string) : Sign unit :=
  λ σ, (tt, mkSignState (request σ) l (hashes σ)).
Definition recordHash (e : hashEvent) : Sign unit :=
  λ σ, (tt, mkSignState (request σ) (resources σ) (hashes σ ++ [e])).

(* --------------------------------------------------------------------- *)
(** ** Signature version 4 (request-signature-v4.go)                      *)
(* --------------------------------------------------------------------- *)

Definition authHeader : string := "AWS4-HMAC-SHA256".
Definition iso8601DateFormat : string := "20060102T150405Z".
Definition yyyymmdd : string := "20060102".

Definition ignoredHeaders : gmap string bool :=
  list_to_map [("Authorization", true); ("Content-Type", true);
               ("Content-Length", true); ("User-Agent", true)].

(** [_, ok := ignoredHeaders[http.CanonicalHeaderKey(k)]]. *)
Definition isIgnored (k : string) : bool :=
  bool_decide (is_Some (ignoredHeaders !! CanonicalHeaderKey k)).

(** The first loop of [getCanonicalHeaders] over the entries of the
    header map in the order [es]: one step per entry, on the pair
    ([headers], [vals]). *)
Definition collectStep (acc : list string * gmap string (list string))
    (e : string * list string) : list string * gmap string (list string) :=
  if isIgnored e.1 then acc
  else (acc.1 ++ [ToLower e.1], <[ToLower e.1 := e.2]> acc.2).

Definition collectHeaders (es : list (string * list string))
  : list string * gmap string (list string) :=
  fold_left collectStep es ([], ∅).

(** The inner loop: the values, a comma before each but the first. *)
Fixpoint writeValues (idx : nat) (vv : list string) : string :=
  match vv with
  | [] => ""
  | v :: rest =>
      (if decide (0 < idx) then "," else "") +:+ v +:+ writeValues (S idx) rest
  end.

(** One turn of the second loop: what is written for the name [k]. *)
Definition writeHeaderLine (host : string) (vals : gmap string (list string))
    (k : string) : string :=
  k +:+ ":" +:+ (if decide (k = "host") then host else "")
    +:+ writeValues 0 (valuesAt vals k) +:+ String "010" "".

Fixpoint writeAll (lines : list string) : string :=
  match lines with
  | [] => ""
  | l :: rest => l +:+ writeAll rest
  end.

(** [getCanonicalHeaders] on the header entries in the order [es] and
    the URL's host. *)
Definition canonicalHeadersOf (es : list (string * list string)) (host : string)
  : string :=
  let '(headers, vals) := collectHeaders es in
  let headers := sortStrings (headers ++ ["host"]) in
  writeAll (writeHeaderLine host vals <$> headers).

(** [getSignedHeaders] on the header entries in the order [es]. *)
Definition signedStep (headers : list string) (e : string * list string)
  : list string :=
  if isIgnored e.1 then headers else headers ++ [ToLower e.1].

Definition signedHeadersOf (es : list (string * list string)) : string :=
  let headers := fold_left signedStep es [] in
  Join (sortStrings (headers ++ ["host"])) ";".

Section SignatureV4.
Context `{env : SignEnv}.

Definition hmac256 (key msg : string) : Sign string :=
  recordHash (EvHMACSHA256 key msg);; mret (sumHMAC key msg).

Definition getSigningKey (secret region : string) (t : Z) : Sign string :=
  date ← hmac256 ("AWS4" +:+ secret) (timeFormat yyyymmdd t);
  regionbytes ← hmac256 date region;
  service ← hmac256 regionbytes "s3";
  hmac256 service "aws4_request".

Definition getSignature (signingKey stringToSign : string) : Sign string :=
  h ← hmac256 signingKey stringToSign;
  mret (hexEncodeToString h).

Definition getScope (region : string) (t : Z) : string :=
  Join [timeFormat yyyymmdd t; region; "s3"; "aws4_request"] "/".

Definition getCredential (accessKeyID region : string) (t : Z) : string :=
  accessKeyID +:+ "/" +:+ getScope region t.

Definition getHashedPayload (r : Request) : string :=
  if decide (expires r ≠ 0%Z) then "UNSIGNED-PAYLOAD"
  else Header_Get (Header_ (req r)) "X-Amz-Content-Sha256".

Definition getCanonicalHeaders (r : Request) : string :=
  canonicalHeadersOf (rangeHeader (Header_ (req r))) (Host (url (req r))).

Definition getSignedHeaders (r : Request) : string :=
  signedHeadersOf (rangeHeader (Header_ (req r))).

(** [getCanonicalRequest] begins by overwriting the URL's raw query. *)
Definition getCanonicalRequest : Sign string :=
  r ← getRequest;
  putRequest (setRawQuery
    (replacePlus (Values_Encode (ParseQuery (RawQuery (url (req r)))))) r);;
  r ← getRequest;
  mret (Join [Method (req r);
              getURLEncodedPath (Path (url (req r)));
              RawQuery (url (req r));
              getCanonicalHeaders r;
              getSignedHeaders r;
              getHashedPayload r] (String "010" "")).

Definition getStringToSignV4 (canonicalRequest : string) (t : Z) : Sign string :=
  r ← getRequest;
  let stringToSign := authHeader +:+ String "010" "" +:+ timeFormat iso8601DateFormat t
                        +:+ String "010" "" in
  let stringToSign := stringToSign +:+ getScope (Region (config r)) t
                        +:+ String "010" "" in
  recordHash (EvSHA256 canonicalRequest);;
  mret (stringToSign +:+ hexEncodeToString (sum256 canonicalRequest)).

(** Modelled from the spec: [r.Set(key, value)] and [r.Get(key)], the
    methods of minio-go's [Request] that the two signature files call
    and do not define.  The spec has signing act through them on the
    request's header set ("adds Date/X-Amz-Date if absent, adds the
    authorization header"): they are [Set] and [Get] of the header of
    the HTTP request. *)
Definition Set_ (key value : string) : Sign unit :=
  r ← getRequest;
  putRequest (setHeader (Header_Set (Header_ (req r)) key value) r).

Definition Get_ (key : string) : Sign string :=
  r ← getRequest;
  mret (Header_Get (Header_ (req r)) key).

(** [PreSignV4], at the instant [t] that [time.Now().UTC()] answers. *)
Definition PreSignV4 (t : Z) : Sign (result string) :=
  r ← getRequest;
  if isAnonymous (config r)
  then mret (Err "presigning cannot be done with anonymous credentials")
  else
    let credential := getCredential (AccessKeyID (config r)) (Region (config r)) t in
    signingKey ← getSigningKey (SecretAccessKey (config r)) (Region (config r)) t;
    let signedHeaders := getSignedHeaders r in
    let query := ParseQuery (RawQuery (url (req r))) in
    let query := <["X-Amz-Algorithm" := [authHeader]]> query in
    let query := <["X-Amz-Date" := [timeFormat iso8601DateFormat t]]> query in
    let query := <["X-Amz-Expires" := [FormatInt (expires r)]]> query in
    let query := <["X-Amz-SignedHeaders" := [signedHeaders]]> query in
    let query := <["X-Amz-Credential" := [credential]]> query in
    putRequest (setRawQuery (Values_Encode query) r);;
    canonicalRequest ← getCanonicalRequest;
    stringToSign ← getStringToSignV4 canonicalRequest t;
    signature ← getSignature signingKey stringToSign;
    r ← getRequest;
    putRequest (setRawQuery
      (RawQuery (url (req r)) +:+ "&X-Amz-Signature=" +:+ signature) r);;
    r ← getRequest;
    mret (Ok (URL_String (url (req r)))).

(** [PostPresignSignatureV4]. *)
Definition PostPresignSignatureV4 (policyBase64 : string) (t : Z) : Sign string :=
  r ← getRequest;
  signingkey ← getSigningKey (SecretAccessKey (config r)) (Region (config r)) t;
  getSignature signingkey policyBase64.

(** [SignV4], at the instant [t]. *)
Definition SignV4 (presign : bool) (t : Z) : Sign unit :=
  Set_ "X-Amz-Date" (timeFormat iso8601DateFormat t);;
  r ← getRequest;
  let signedHeaders := getSignedHeaders r in
  canonicalRequest ← getCanonicalRequest;
  stringToSign ← getStringToSignV4 canonicalRequest t;
  r ← getRequest;
  let credential := getCredential (AccessKeyID (config r)) (Region (config r)) t in
  signingKey ← getSigningKey (SecretAccessKey (config r)) (Region (config r)) t;
  signature ← getSignature signingKey stringToSign;
  let parts := [authHeader +:+ " Credential=" +:+ credential;
                "SignedHeaders=" +:+ signedHeaders;
                "Signature=" +:+ signature] in
  let auth := Join parts ", " in
  Set_ "Authorization" auth.

End SignatureV4.

(* --------------------------------------------------------------------- *)
(** ** Signature version 2 (request-signature-v2.go)                      *)
(* --------------------------------------------------------------------- *)

(** The package variable [resourceList] as it is declared. *)
Definition resourceList : list string :=
  [ "acl"; "location"; "logging"; "notification"; "partNumber"; "policy";
    "response-content-type"; "response-content-language"; "response-expires";
    "response-cache-control"; "response-content-disposition";
    "response-content-encoding"; "requestPayment"; "torrent"; "uploadId";
    "uploads"; "versionId"; "versioning"; "versions"; "website" ].

(** The loop of [writeCanonicalizedResource] over the resource list:
    [n] counts the matches so far; the result is what is written. *)
Fixpoint writeSubresources (vals : gmap string (list string)) (n : nat)
    (rs : list string) : string :=
  match rs with
  | [] => ""
  | resource :: rest =>
      match vals !! resource with
      | Some (v0 :: _) =>
          (if decide (S n = 1) then "?" else "&") +:+ resource
            +:+ (if decide (0 < String.length v0) then "=" +:+ QueryEscape v0 else "")
            +:+ writeSubresources vals (S n) rest
      | _ => writeSubresources vals n rest
      end
  end.

(** The first loop of [writeCanonicalizedHeaders], one step per entry. *)
Definition protoStep (acc : list string * gmap string (list string))
    (e : string * list string) : list string * gmap string (list string) :=
  let lk := ToLower e.1 in
  if HasPrefix lk "x-amz" then (acc.1 ++ [lk], <[lk := e.2]> acc.2) else acc.

Definition writeProtoLine (vals : gmap string (list string)) (k : string) : string :=
  k +:+ ":" +:+ writeValues 0 (valuesAt vals k) +:+ String "010" "".

Definition canonicalizedHeadersOf (es : list (string * list string)) : string :=
  let '(protoHeaders, vals) := fold_left protoStep es ([], ∅) in
  writeAll (writeProtoLine vals <$> sortStrings protoHeaders).

(** [http.TimeFormat]. *)
Definition httpTimeFormat : string := "Mon, 02 Jan 2006 15:04:05 GMT".

Section SignatureV2.
Context `{env : SignEnv}.

(** [for k, v := range regions { if v == r.config.Region { ...; break } }]:
    the body runs for the first entry whose value is the region. *)
Fixpoint firstRegionKey (rs : list (string * string)) (region : string)
  : option string :=
  match rs with
  | [] => None
  | (k, v) :: rest =>
      if decide (v = region) then Some k else firstRegionKey rest region
  end.

Definition regionHostSuffix (region : string) : option string :=
  firstRegionKey regions region.

(** The path that virtual-hosted style signs: "/" + bucket + path. *)
Definition virtualHostedPath (r : Request) : option string :=
  k ← regionHostSuffix (Region (config r));
  Some ("/" +:+ TrimSuffix (Host (url (req r))) ("." +:+ k) +:+ Path (url (req r))).

Definition hmacsha1 (key msg : string) : Sign string :=
  recordHash (EvHMACSHA1 key msg);; mret (hmacSHA1 key msg).

(** [PreSignV2], at the instant [d] (seconds since the epoch). *)
Definition PreSignV2 (d : Z) : Sign (result string) :=
  r ← getRequest;
  if isAnonymous (config r)
  then mret (Err "presigning cannot be done with anonymous credentials")
  else
    date ← Get_ "Date";
    (if decide (date = "")
     then Set_ "Date" (timeFormat httpTimeFormat d)
     else mret tt);;
    r ← getRequest;
    let path :=
      if isVirtualHostedStyle (config r)
      then match virtualHostedPath r with
           | Some p => getURLEncodedPath p
           | None => ""
           end
      else getURLEncodedPath (Path (url (req r))) in
    let epochExpires := wrap64 (d + expires r) in
    let stringToSign := Method (req r) +:+ String "010" (String "010" (String "010" ""))
                          +:+ FormatInt epochExpires +:+ String "010" "" +:+ path in
    sum ← hmacsha1 (SecretAccessKey (config r)) stringToSign;
    let signature := base64EncodeToString sum in
    let query := ParseQuery (RawQuery (url (req r))) in
    let query :=
      if decide (Region (config r) = "google")
      then <["GoogleAccessId" := [AccessKeyID (config r)]]> query
      else <["AWSAccessKeyId" := [AccessKeyID (config r)]]> query in
    let query := <["Expires" := [FormatInt epochExpires]]> query in
    let query := <["Signature" := [signature]]> query in
    putRequest (setRawQuery (Values_Encode query) r);;
    r ← getRequest;
    mret (Ok (URL_String (url (req r)))).

(** [PostPresignSignatureV2]. *)
Definition PostPresignSignatureV2 (policyBase64 : string) : Sign string :=
  r ← getRequest;
  sum ← hmacsha1 (SecretAccessKey (config r)) policyBase64;
  mret (base64EncodeToString sum).

(** [writeDefaultHeaders]: what it appends to the buffer. *)
Definition writeDefaultHeaders (r : Request) : string :=
  Method (req r) +:+ String "010" ""
    +:+ Header_Get (Header_ (req r)) "Content-MD5" +:+ String "010" ""
    +:+ Header_Get (Header_ (req r)) "Content-Type" +:+ String "010" ""
    +:+ Header_Get (Header_ (req r)) "Date" +:+ String "010" "".

(** [writeCanonicalizedHeaders]. *)
Definition writeCanonicalizedHeaders (r : Request) : string :=
  canonicalizedHeadersOf (rangeHeader (Header_ (req r))).

(** The query suffix of the canonicalized resource, over the resource
    list as it stands after [sort.Strings(resourceList)]. *)
Definition subresourceSuffix (rawQuery : string) (sorted : list string) : string :=
  if decide (rawQuery ≠ "")
  then writeSubresources (ParseQuery rawQuery) 0 sorted
  else "".

(** [writeCanonicalizedResource]: sorts the package variable in place
    and answers what it appends to the buffer (the error is always
    nil). *)
Definition writeCanonicalizedResource : Sign string :=
  r ← getRequest;
  let requestURL := url (req r) in
  let pathPart :=
    if isVirtualHostedStyle (config r)
    then match virtualHostedPath r with
         | Some p => getURLEncodedPath p
         | None => ""
         end
    else getURLEncodedPath (Path requestURL) in
  rl ← getResources;
  putResources (sortStrings rl);;
  rl ← getResources;
  mret (pathPart +:+ subresourceSuffix (RawQuery requestURL) rl).

(** [getStringToSignV2]. *)
Definition getStringToSignV2 : Sign string :=
  r ← getRequest;
  let b1 := writeDefaultHeaders r in
  let b2 := writeCanonicalizedHeaders r in
  b3 ← writeCanonicalizedResource;
  mret (b1 +:+ b2 +:+ b3).

(** [SignV2], at the instant [d]. *)
Definition SignV2 (d : Z) : Sign unit :=
  date ← Get_ "Date";
  (if decide (date = "")
   then Set_ "Date" (timeFormat httpTimeFormat d)
   else mret tt);;
  stringToSign ← getStringToSignV2;
  r ← getRequest;
  sum ← hmacsha1 (SecretAccessKey (config r)) stringToSign;
  let authHeader := "AWS " +:+ AccessKeyID (config r) +:+ ":"
                      +:+ base64EncodeToString sum in
  r ← getRequest;
  putRequest (setHeader (Header_Set (Header_ (req r)) "Authorization" authHeader) r).

End SignatureV2.

(** The state in which a program first calls into the package. *)
Definition initialState (r : Request) : signState :=
  mkSignState r resourceList [].

(* --------------------------------------------------------------------- *)
(** ** Two concrete environments, for evaluating the code                 *)
(* --------------------------------------------------------------------- *)

(** A signing environment whose hashes and encodings are formal
    expressions over their arguments, so that what went into a
    signature can be read off the result.  Instants print as their
    number of seconds under the layout; paths are taken as already
    encoded; the region table has the two entries shown; a header map is
    ranged over in the order of [map_to_list]. *)
Definition symbolicURLString (u : URL) : string :=
  Scheme u +:+ "://" +:+ Host u +:+ Path u
    +:+ (if decide (RawQuery u = "") then "" else "?" +:+ RawQuery u).

#[local] Instance symbolicEnv : SignEnv := {|
  sumHMAC k m := "hmac256(" +:+ k +:+ "," +:+ m +:+ ")";
  sum256 m := "sha256(" +:+ m +:+ ")";
  hmacSHA1 k m := "hmacsha1(" +:+ k +:+ "," +:+ m +:+ ")";
  hexEncodeToString s := "hex(" +:+ s +:+ ")";
  base64EncodeToString s := "base64(" +:+ s +:+ ")";
  timeFormat layout t := layout +:+ "@" +:+ pretty t;
  FormatInt z := pretty z;
  getURLEncodedPath p := p;
  regions := [("s3.amazonaws.com", "us-east-1");
              ("s3-us-west-2.amazonaws.com", "us-west-2")];
  isAnonymous c :=
    bool_decide (AccessKeyID c = "") && bool_decide (SecretAccessKey c = "");
  URL_String := symbolicURLString;
  rangeHeader h := map_to_list h;
  rangeHeader_perm h := Permutation_refl (map_to_list h)
|}.

(** An in-memory operating system: the world is whether the session
    directory exists and what each path holds; a header file holds a
    header (what [quick.Save] wrote and [quick.Load] reads back), a data
    file holds bytes; an open file is its name; no call fails except on
    a path that holds nothing or the wrong kind of file. *)
Inductive memFile : Type :=
| HeaderFile (h : sessionV6Header)
| DataFile (content : string).

Record memWorld : Type := mkMemWorld {
  mw_dir : bool;
  mw_files : gmap string memFile
}.

Definition memSessionFile (sid : string) : string := "sessions/" +:+ sid +:+ ".json".
Definition memSessionDataFile (sid : string) : string := "sessions/" +:+ sid +:+ ".data".

Definition memSessionIDOf (path : string) : option string :=
  p ← stripPrefix "sessions/" path;
  String.rev <$> stripPrefix (String.rev ".json") (String.rev p).

Definition memExists (p : string) (w : memWorld) : bool :=
  bool_decide (is_Some (mw_files w !! p)).

Definition memCheck (p : string) (w : memWorld) : option string :=
  if memExists p w then None else Some ("no such file: " +:+ p).

#[local] Instance memOS : OS := {|
  world := memWorld;
  file := string;
  isSessionDirExists := mw_dir;
  getSessionFile sid _ := Ok (memSessionFile sid);
  getSessionDataFile sid _ := Ok (memSessionDataFile sid);
  getSessionIDs w := omap memSessionIDOf (sortStrings (map fst (map_to_list (mw_files w))));
  os_Stat := memCheck;
  os_Open p w := (if memExists p w then Ok p else Err ("no such file: " +:+ p), w);
  os_Remove p w :=
    if memExists p w
    then (None, mkMemWorld (mw_dir w) (delete p (mw_files w)))
    else (Some ("no such file: " +:+ p), w);
  file_Sync f w := (memCheck f w, w);
  file_Close f w := (memCheck f w, w);
  file_Name f := f;
  quick_New _ := None;
  quick_Load p _ w :=
    match mw_files w !! p with
    | Some (HeaderFile h) => Ok h
    | Some (DataFile _) => Err "invalid character"
    | None => Err ("no such file: " +:+ p)
    end;
  quick_Save p h w := (None, mkMemWorld (mw_dir w) (<[p := HeaderFile h]> (mw_files w)))
|}.

(** A request to evaluate the signing code on. *)
Definition exampleRequest (rawQuery : string) (header : list (string * list string))
    (expiry : Z) : Request :=
  mkRequest
    (mkHTTPRequest "GET"
       (mkURL "https" "bucket.s3.amazonaws.com" "/object" rawQuery)
       (list_to_map header) "payload")
    (mkConfig "AKID" "SECRET" "us-east-1" false) expiry.

(** A store with three sessions, the first and the last written by an
    older version, and a session value for the second. *)
Definition exampleStore : memWorld :=
  mkMemWorld true (list_to_map [
    (memSessionFile "aaaa", HeaderFile (setVersion "5" zeroHeader));
    (memSessionDataFile "aaaa", DataFile "itemA");
    (memSessionFile "bbbb", HeaderFile (setVersion "6" zeroHeader));
    (memSessionDataFile "bbbb", DataFile "itemB");
    (memSessionFile "cccc", HeaderFile (setVersion "5" zeroHeader));
    (memSessionDataFile "cccc", DataFile "itemC")]).

Definition exampleSession (unflushed : bool) : @sessionV6 memOS :=
  mkSession (setVersion "6" zeroHeader) "bbbb"
    (Some (mkDataFP (os:=memOS) unflushed (memSessionDataFile "bbbb"))) false.

(* --------------------------------------------------------------------- *)
(** ** Vocabulary of the properties                                       *)
(* --------------------------------------------------------------------- *)

Section EventKinds.
Context `{os : OS}.

Definition isSync (e : event) : bool :=
  match e with EvSync _ _ => true | _ => false end.
Definition isSaveHeader (e : event) : bool :=
  match e with EvSaveHeader _ _ _ => true | _ => false end.
Definition isRemove (e : event) : bool :=
  match e with EvRemove _ _ => true | _ => false end.

(** What the tail of [Save] and [Close] records from the world [w]: the
    header write, when [quick.New] and [getSessionFile] go through. *)
Definition headerWrite (s : sessionV6) (w : world) : list event :=
  match quick_New (Header s), getSessionFile (SessionID s) w with
  | None, Ok sessionFile =>
      [EvSaveHeader sessionFile (Header s) (quick_Save sessionFile (Header s) w).1]
  | _, _ => []
  end.

End EventKinds.

Section Frames.
Context `{env : SignEnv}.

(** The header as [PreSignV2] and [SignV2] leave it before signing: a
    [Date] is added when [Get("Date")] is empty. *)
Definition withDate (d : Z) (h : gmap string (list string))
  : gmap string (list string) :=
  if decide (Header_Get h "Date" = "")
  then Header_Set h "Date" (timeFormat httpTimeFormat d) else h.

End Frames.

(** [resourceList] after [sort.Strings]. *)
Definition sortedResourceList : list string :=
  [ "acl"; "location"; "logging"; "notification"; "partNumber"; "policy";
    "requestPayment"; "response-cache-control"; "response-content-disposition";
    "response-content-encoding"; "response-content-language";
    "response-content-type"; "response-expires"; "torrent"; "uploadId";
    "uploads"; "versionId"; "versioning"; "versions"; "website" ].

(** The parameters of a parsed query that the canonicalized resource
    shows: for each name of the list [rs], in the order of [rs], that
    has at least one value, the name with its first value. *)
Definition matchedSubresources (vals : gmap string (list string))
    (rs : list string) : list (string * string) :=
  omap (λ k, match vals !! k with
             | Some (v0 :: _) => Some (k, v0)
             | _ => None
             end) rs.

(** [key] or [key=value]. *)
Definition renderSubresource (kv : string * string) : string :=
  kv.1 +:+ (if decide (kv.2 = "") then "" else "=" +:+ QueryEscape kv.2).

(** Nothing, or '?' and the items joined by '&'. *)
Definition renderSuffix (items : list string) : string :=
  match items with
  | [] => ""
  | _ => "?" +:+ Join items "&"
  end.

Section ResourcePath.
Context `{env : SignEnv}.

(** The path part of the canonicalized resource. *)
Definition resourcePath (r : Request) : string :=
  if isVirtualHostedStyle (config r)
  then match virtualHostedPath r with
       | Some p => getURLEncodedPath p
       | None => ""
       end
  else getURLEncodedPath (Path (url (req r))).

End ResourcePath.

(** The names that [ignoredHeaders] holds. *)
Definition denyList : list string :=
  ["Authorization"; "Content-Type"; "Content-Length"; "User-Agent"].

(** The header entries that take part in a V4 signature: those whose
    name is not ignored, the name in lower case, in the order of the
    enumeration. *)
Definition signedEntries (es : list (string * list string))
  : list (string * list string) :=
  (λ e, (ToLower e.1, e.2)) <$> filter (λ e, isIgnored e.1 = false) es.

(** The values of the last entry of [l] named [k]; none when there is no
    such entry. *)
Definition lastValues (l : list (string * list string)) (k : string)
  : list string :=
  valuesAt (list_to_map (reverse l)) k.

(** A line of the canonical header block. *)
Definition headerLine (host k : string) (vv : list string) : string :=
  k +:+ ":" +:+ (if decide (k = "host") then host else "")
    +:+ Join vv "," +:+ String "010" "".

(** Two header maps that differ only in the letter case of names: their
    entries can be listed side by side so that facing entries have the
    same values and names that are equal once in lower case. *)
Definition sameUpToCase (e1 e2 : string * list string) : Prop :=
  ToLower e1.1 = ToLower e2.1 ∧ e1.2 = e2.2.

Definition caseVariant (h1 h2 : gmap string (list string)) : Prop :=
  ∃ es1 es2, es1 ≡ₚ map_to_list h1 ∧ es2 ≡ₚ map_to_list h2
             ∧ Forall2 sameUpToCase es1 es2.

Section AuthorizationV4.
Context `{env : SignEnv}.

(** The canonical request of a request whose raw query is already in the
    form [getCanonicalRequest] gives it. *)
Definition canonicalRequestOf (r : Request) : string :=
  Join [Method (req r);
        getURLEncodedPath (Path (url (req r)));
        replacePlus (Values_Encode (ParseQuery (RawQuery (url (req r)))));
        getCanonicalHeaders r;
        getSignedHeaders r;
        getHashedPayload r] (String "010" "").

(** The signature that [SignV4] and [PreSignV4] derive from a canonical
    request at the instant [t]. *)
Definition signatureOf (c : Config) (canonicalRequest : string) (t : Z) : string :=
  hexEncodeToString
    (sumHMAC
       (sumHMAC (sumHMAC (sumHMAC (sumHMAC ("AWS4" +:+ SecretAccessKey c)
                                     (timeFormat yyyymmdd t))
                            (Region c)) "s3") "aws4_request")
       (authHeader +:+ String "010" "" +:+ timeFormat iso8601DateFormat t
          +:+ String "010" "" +:+ getScope (Region c) t +:+ String "010" ""
          +:+ hexEncodeToString (sum256 canonicalRequest))).

(** The request as [SignV4] signs it: [X-Amz-Date] set. *)
Definition dated (t : Z) (r : Request) : Request :=
  setHeader (Header_Set (Header_ (req r)) "X-Amz-Date"
               (timeFormat iso8601DateFormat t)) r.

End AuthorizationV4.

(** Unfolding the two monads. *)
Ltac io_unfold :=
  unfold run, locked, mbind, io_mbind, io_bind, mret, io_mret, io_ret,
    io_read, io_emit, io_call, io_fatal, fatalIf.

Ltac sign_unfold :=
  unfold Set_, Get_, hmac256, hmacsha1, mbind, sign_mbind, mret, sign_mret,
    getRequest, putRequest, getResources, putResources, recordHash.

(* --------------------------------------------------------------------- *)
(** ** Further code: aliases and host styles (url.go)                     *)
(* --------------------------------------------------------------------- *)

(** [strings.TrimPrefix]. *)
Definition TrimPrefix (s prefix : string) : string :=
  match stripPrefix prefix s with
  | Some r => r
  | None => s
  end.

(** [strings.SplitN(s, sep, 2)] for a one-byte separator: the string
    itself when the separator does not occur, else what is before and
    what is after its first occurrence. *)
Definition SplitN2 (s : string) (sep : ascii) : list string :=
  if containsByte sep s
  then let '(a, b) := cutAt sep s in [a; b]
  else [s].

(** [url2Alias], with '/' for [os.PathSeparator].  [SplitN2] answers one
    or two parts, so [urlParts[0]] is always there; the last case of the
    match is never taken. *)
Definition url2Alias (aliasedURL : string) : string * string :=
  let urlStr := TrimPrefix aliasedURL "/" in
  match SplitN2 urlStr "/" with
  | [a; b] => (a, b)
  | a :: _ => (a, "")
  | [] => ("", "")
  end.

(** [filepath.Match] for patterns made of literal bytes and '*' (the two
    patterns of [isURLVirtualHostStyle] have nothing else): '*' stands
    for any run of bytes other than the path separator '/'. *)
Fixpoint globMatch (pattern : string) : string → bool :=
  match pattern with
  | EmptyString => λ name, if name is EmptyString then true else false
  | String p pattern' =>
      if Ascii.eqb p "*" then
        fix star (name : string) : bool :=
          globMatch pattern' name ||
          match name with
          | EmptyString => false
          | String c name' => negb (Ascii.eqb c "/") && star name'
          end
      else
        λ name,
          match name with
          | EmptyString => false
          | String c name' => Ascii.eqb p c && globMatch pattern' name'
          end
  end.

(** [isURLVirtualHostStyle]. *)
Definition isURLVirtualHostStyle (hostURL : string) : bool :=
  let matchS3 := globMatch "*.s3*.amazonaws.com" hostURL in
  let matchGoogle := globMatch "*.storage.googleapis.com" hostURL in
  matchS3 || matchGoogle.

(* --------------------------------------------------------------------- *)
(** ** Further code: global flags in the session header (session-v6.go)   *)
(* --------------------------------------------------------------------- *)

(** The four package variables that a session captures. *)
Record globals : Type := mkGlobals {
  globalQuiet : bool;
  globalDebug : bool;
  globalJSON : bool;
  globalNoColor : bool
}.

Definition setGlobalBoolFlags (m : gmap string bool) (h : sessionV6Header)
  : sessionV6Header :=
  mkHeader (Version h) (When h) (RootPath h) m (GlobalIntFlags h)
    (GlobalStringFlags h) (CommandType h) (CommandArgs h) (CommandBoolFlags h)
    (CommandIntFlags h) (CommandStringFlags h) (LastCopied h) (TotalBytes h)
    (TotalObjects h).

(** The method [setGlobals]: the four assignments, in order. *)
Definition setGlobals (g : globals) (h : sessionV6Header) : sessionV6Header :=
  let m := GlobalBoolFlags h in
  let m := <["quiet" := globalQuiet g]> m in
  let m := <["debug" := globalDebug g]> m in
  let m := <["json" := globalJSON g]> m in
  let m := <["noColor" := globalNoColor g]> m in
  setGlobalBoolFlags m h.

(** Indexing a [map[string]bool]: [false] when the key is absent. *)
Definition boolAt (m : gmap string bool) (k : string) : bool :=
  default false (m !! k).

(** [restoreGlobals]: the four values it reads and hands to the package
    function [setGlobals(quiet, debug, json, noColor)]. *)
Definition restoreGlobals (h : sessionV6Header) : globals :=
  let quiet := boolAt (GlobalBoolFlags h) "quiet" in
  let debug := boolAt (GlobalBoolFlags h) "debug" in
  let json := boolAt (GlobalBoolFlags h) "json" in
  let noColor := boolAt (GlobalBoolFlags h) "noColor" in
  mkGlobals quiet debug json noColor.

(* --------------------------------------------------------------------- *)
(** ** Further vocabulary                                                 *)
(* --------------------------------------------------------------------- *)

(** How many items the resume filter skips on a replayed sequence
    ([skipped]): none for the empty checkpoint, else ([skipCount])
    everything up to and including the first occurrence of the
    checkpoint, or everything when it does not occur. *)
Fixpoint skipCount (lastCopied : string) (items : list string) : nat :=
  match items with
  | [] => 0
  | u :: rest =>
      if decide (lastCopied = u) then 1 else S (skipCount lastCopied rest)
  end.

Definition skipped (lastCopied : string) (items : list string) : nat :=
  if decide (lastCopied = "") then 0 else skipCount lastCopied items.

Section DeleteEvents.
Context `{os : OS}.

Definition isClose (e : event) : bool :=
  match e with EvClose _ _ => true | _ => false end.

(** What [Delete] records for the header file from the world [w]. *)
Definition headerRemoval (s : sessionV6) (w : world) : list event :=
  match getSessionFile (SessionID s) w with
  | Ok sessionFile => [EvRemove sessionFile (os_Remove sessionFile w).1]
  | Err _ => []
  end.

End DeleteEvents.

(** The header entries that take part in a V2 signature: those whose
    name in lower case begins with "x-amz", the name in lower case. *)
Definition amzEntries (es : list (string * list string))
  : list (string * list string) :=
  (λ e, (ToLower e.1, e.2))
    <$> filter (λ e, HasPrefix (ToLower e.1) "x-amz" = true) es.

(** A line of the canonicalized protocol headers. *)
Definition protoLine (k : string) (vv : list string) : string :=
  k +:+ ":" +:+ Join vv "," +:+ String "010" "".

Section StringToSignV2.
Context `{env : SignEnv}.

(** The string that [getStringToSignV2] builds for the request [r] when
    the package variable holds [rl]. *)
Definition stringToSignV2Of (r : Request) (rl : list string) : string :=
  writeDefaultHeaders r +:+ writeCanonicalizedHeaders r
    +:+ (resourcePath r
           +:+ subresourceSuffix (RawQuery (url (req r))) (sortStrings rl)).

(** The request as [SignV2] and [PreSignV2] sign it: [Date] ensured. *)
Definition datedV2 (d : Z) (r : Request) : Request :=
  setHeader (withDate d (Header_ (req r))) r.

(** The value that [SignV2] gives the [Authorization] header. *)
Definition authorizationV2Of (r : Request) (rl : list string) : string :=
  "AWS " +:+ AccessKeyID (config r) +:+ ":"
    +:+ base64EncodeToString
          (hmacSHA1 (SecretAccessKey (config r)) (stringToSignV2Of r rl)).

End StringToSignV2.

(** A parsed query gives every name it holds at least one value. *)
Definition nonEmptyLists (v : gmap string (list string)) : Prop :=
  ∀ k l, v !! k = Some l → l ≠ [].

(** The escaping that [getCanonicalRequest] ends up with: [QueryEscape],
    then "%20" for every '+'. *)
Definition canonicalEscape (s : string) : string := replacePlus (QueryEscape s).

Section PresignedQueries.
Context `{env : SignEnv}.

(** The query values that [PreSignV4] encodes into the URL before it
    signs: those of the request with the five X-Amz entries set. *)
Definition presignQueryV4 (r : Request) (t : Z) : gmap string (list string) :=
  <["X-Amz-Credential" :=
      [getCredential (AccessKeyID (config r)) (Region (config r)) t]]>
    (<["X-Amz-SignedHeaders" := [getSignedHeaders r]]>
       (<["X-Amz-Expires" := [FormatInt (expires r)]]>
          (<["X-Amz-Date" := [timeFormat iso8601DateFormat t]]>
             (<["X-Amz-Algorithm" := [authHeader]]>
                (ParseQuery (RawQuery (url (req r)))))))).

(** The string that [PreSignV2] signs at the instant [d]. *)
Definition presignStringV2 (r : Request) (d : Z) : string :=
  Method (req r) +:+ String "010" (String "010" (String "010" ""))
    +:+ FormatInt (wrap64 (d + expires r)) +:+ String "010" ""
    +:+ resourcePath r.

(** The name under which [PreSignV2] gives the access key. *)
Definition accessKeyName (c : Config) : string :=
  if decide (Region c = "google") then "GoogleAccessId" else "AWSAccessKeyId".

(** The query values that [PreSignV2] encodes into the URL. *)
Definition presignQueryV2 (r : Request) (d : Z) : gmap string (list string) :=
  <["Signature" :=
      [base64EncodeToString
         (hmacSHA1 (SecretAccessKey (config r)) (presignStringV2 r d))]]>
    (<["Expires" := [FormatInt (wrap64 (d + expires r))]]>
       (<[accessKeyName (config r) := [AccessKeyID (config r)]]>
          (ParseQuery (RawQuery (url (req r)))))).

(** The value that [SignV4] gives the [Authorization] header of the
    request [r], already dated. *)
Definition authorizationV4Of (r : Request) (t : Z) : string :=
  Join [authHeader +:+ " Credential="
          +:+ getCredential (AccessKeyID (config r)) (Region (config r)) t;
        "SignedHeaders=" +:+ getSignedHeaders r;
        "Signature=" +:+ signatureOf (config r) (canonicalRequestOf r) t] ", ".

End PresignedQueries.

Section PresignedRequests.
Context `{env : SignEnv}.

(** The request as [PreSignV4] leaves it: the raw query is the encoded
    query values, every '+' written "%20", then the signature. *)
Definition presignedV4 (r : Request) (t : Z) : Request :=
  setRawQuery
    (replacePlus (Values_Encode (presignQueryV4 r t))
       +:+ "&X-Amz-Signature="
       +:+ signatureOf (config r)
             (canonicalRequestOf (setRawQuery (Values_Encode (presignQueryV4 r t)) r)) t)
    r.

(** The request as [PreSignV2] leaves it: [Date] set when it was not,
    the raw query the encoded query values. *)
Definition presignedV2 (r : Request) (d : Z) : Request :=
  setRawQuery (Values_Encode (presignQueryV2 r d)) (datedV2 d r).

End PresignedRequests.

(* ===================================================================== *)
(** * Part II: properties                                                 *)
(* ===================================================================== *)

(* --------------------------------------------------------------------- *)
(** ** Resume filter                                                      *)
(* --------------------------------------------------------------------- *)

Section ResumeFilter.
Implicit Types (lastCopied u : string) (items pre post : list string).

Lemma isCopied_empty_item lastCopied copied :
  isCopied lastCopied copied "" = Fatal "Empty source argument passed.".
Proof. reflexivity. Qed.

Lemma isCopied_fresh copied u :
  u ≠ "" → isCopied "" copied u = Returns (false, copied).
Proof. intros Hu. unfold isCopied. by repeat case_decide. Qed.

Lemma isCopied_passed lastCopied u :
  u ≠ "" → isCopied lastCopied false u = Returns (false, false).
Proof. intros Hu. unfold isCopied. by repeat case_decide. Qed.

Lemma isCopied_before lastCopied u :
  u ≠ "" → lastCopied ≠ "" → lastCopied ≠ u →
  isCopied lastCopied true u = Returns (true, true).
Proof. intros Hu Hl Hne. unfold isCopied. by repeat case_decide. Qed.

Lemma isCopied_at lastCopied :
  lastCopied ≠ "" → isCopied lastCopied true lastCopied = Returns (true, false).
Proof. intros Hl. unfold isCopied. by repeat case_decide. Qed.

Lemma replayFrom_fresh copied items :
  Forall (λ u, u ≠ "") items →
  replayFrom "" copied items = Returns (replicate (length items) false).
Proof.
  induction 1 as [|u items Hu _ IH]; [done|].
  cbn [replayFrom]. by rewrite isCopied_fresh, IH.
Qed.

Lemma replayFrom_passed lastCopied items :
  Forall (λ u, u ≠ "") items →
  replayFrom lastCopied false items = Returns (replicate (length items) false).
Proof.
  induction 1 as [|u items Hu _ IH]; [done|].
  cbn [replayFrom]. by rewrite isCopied_passed, IH.
Qed.

Lemma replayFrom_before lastCopied items :
  lastCopied ≠ "" → lastCopied ∉ items → Forall (λ u, u ≠ "") items →
  replayFrom lastCopied true items = Returns (replicate (length items) true).
Proof.
  intros Hl Hnotin Hne. induction Hne as [|u items Hu _ IH]; [done|].
  apply not_elem_of_cons in Hnotin as [Hlu Hnotin].
  cbn [replayFrom]. by rewrite isCopied_before, IH.
Qed.

Lemma replayFrom_through lastCopied pre post :
  lastCopied ≠ "" → lastCopied ∉ pre → Forall (λ u, u ≠ "") (pre ++ post) →
  replayFrom lastCopied true (pre ++ lastCopied :: post)
  = Returns (replicate (S (length pre)) true ++ replicate (length post) false).
Proof.
  intros Hl. induction pre as [|u pre IH]; intros Hnotin Hne.
  - cbn [app replayFrom]. by rewrite isCopied_at, replayFrom_passed.
  - apply not_elem_of_cons in Hnotin as [Hlu Hnotin].
    apply Forall_cons in Hne as [Hu Hne].
    cbn [app replayFrom]. by rewrite isCopied_before, IH.
Qed.

End ResumeFilter.

(** C1 (as the code has it).  Over a replayed sequence of non-empty
    items, the filter built from a non-empty checkpoint answers [true]
    for every item up to and including the first occurrence of the
    checkpoint and [false] for every item after it; for the checkpoint
    "itemB" and the sequence itemA, itemB, itemC, itemD the answers are
    true, true, false, false; and the filter built from the empty
    checkpoint answers [false] for every non-empty item. *)
Theorem resume_filter_through_checkpoint :
  (∀ lastCopied pre post,
     lastCopied ≠ "" → lastCopied ∉ pre → Forall (λ u, u ≠ "") (pre ++ post) →
     replay lastCopied (pre ++ lastCopied :: post)
     = Returns (replicate (S (length pre)) true ++ replicate (length post) false))
  ∧ replay "itemB" ["itemA"; "itemB"; "itemC"; "itemD"]
    = Returns [true; true; false; false]
  ∧ (∀ items, Forall (λ u, u ≠ "") items →
       replay "" items = Returns (replicate (length items) false)).
Proof.
  split; [|split].
  - intros. by apply replayFrom_through.
  - reflexivity.
  - intros. by apply replayFrom_fresh.
Qed.

Lemma resume_filter_through_checkpoint_witness :
  replay "b" (["a"] ++ "b" :: ["c"]) = Returns [true; true; false]
  ∧ replay "" ["a"; "b"] = Returns [false; false].
Proof.
  split.
  - apply (proj1 resume_filter_through_checkpoint "b" ["a"] ["c"]).
    + discriminate.
    + by intros [?|[]%elem_of_nil]%elem_of_cons.
    + by repeat constructor.
  - apply (proj2 (proj2 resume_filter_through_checkpoint) ["a"; "b"]).
    by repeat constructor.
Defined.

(** C1, as stated, fails on an empty item: the call does not return
    [false], it ends the process. *)
Lemma resume_filter_empty_item_is_fatal :
  isCopied "" (isCopiedFactory "") "" = Fatal "Empty source argument passed."
  ∧ replay "" ["itemA"; ""] ≠ Returns [false; false]
  ∧ replay "itemB" ["itemA"; "itemB"; ""] ≠ Returns [true; true; false].
Proof. by split_and!. Qed.

(** C10 (as the code has it).  When the non-empty checkpoint does not
    occur in the replayed sequence of non-empty items, every call
    answers [true]: every item is skipped. *)
Theorem resume_filter_missing_checkpoint_skips_all lastCopied items :
  lastCopied ≠ "" → lastCopied ∉ items → Forall (λ u, u ≠ "") items →
  replay lastCopied items = Returns (replicate (length items) true).
Proof. apply replayFrom_before. Qed.

Lemma resume_filter_missing_checkpoint_skips_all_witness :
  replay "itemX" ["itemA"; "itemB"] = Returns [true; true].
Proof.
  apply (resume_filter_missing_checkpoint_skips_all "itemX" ["itemA"; "itemB"]).
  - discriminate.
  - by intros [?|[?|[]%elem_of_nil]%elem_of_cons]%elem_of_cons.
  - by repeat constructor.
Defined.

(** C10, as stated, fails when the sequence holds an empty item: the
    call on it is fatal and answers nothing. *)
Lemma resume_filter_missing_checkpoint_empty_item :
("itemX" ∉ ["itemA"; ""])
  ∧ replay "itemX" ["itemA"; ""] = Fatal "Empty source argument passed."
  ∧ replay "itemX" ["itemA"; ""] ≠ Returns [true; true].
Proof.
  split_and!; [|done..].
  by intros [?|[?|[]%elem_of_nil]%elem_of_cons]%elem_of_cons.
Qed.

(* --------------------------------------------------------------------- *)
(** ** Session store                                                      *)
(* --------------------------------------------------------------------- *)

Section SessionFacts.
Context `{os : OS}.
Implicit Types (s : sessionV6) (w : world) (evs : list event).

(** [saveHeader] records [headerWrite] and nothing else. *)
Lemma saveHeader_events s w evs :
  (saveHeader s (w, evs)).2.2 = evs ++ headerWrite s w.
Proof.
  unfold saveHeader, headerWrite. io_unfold.
  destruct (quick_New (Header s)); simpl; [by rewrite app_nil_r|].
  destruct (getSessionFile (SessionID s) w) as [f|]; simpl; [|by rewrite app_nil_r].
  by destruct (quick_Save f (Header s) w).
Qed.

Lemma saveHeader_returns s w evs :
  ∃ e w', saveHeader s (w, evs) = (Returns e, (w', evs ++ headerWrite s w)).
Proof.
  unfold saveHeader, headerWrite. io_unfold.
  destruct (quick_New (Header s)); simpl; [rewrite app_nil_r; eauto|].
  destruct (getSessionFile (SessionID s) w) as [f|]; simpl; [|rewrite app_nil_r; eauto].
  destruct (quick_Save f (Header s) w); eauto.
Qed.

Lemma headerWrite_no_sync s w : Forall (λ e, isSync e = false) (headerWrite s w).
Proof.
  unfold headerWrite.
  destruct (quick_New (Header s)), (getSessionFile (SessionID s) w);
    repeat constructor.
Qed.

(** [Save] on a dirty data file: lock, sync, then - only when the sync
    went through - the header write, then unlock. *)
Lemma Save_dirty_events s fp w :
  DataFP s = Some fp → dirty fp = true →
  (run (Save s) w).2.2
  = EvLock :: EvSync (file_Name (File fp)) (file_Sync (File fp) w).1
      :: match (file_Sync (File fp) w).1 with
         | Some _ => []
         | None => headerWrite s (file_Sync (File fp) w).2
         end ++ [EvUnlock].
Proof.
  intros Hfp Hdirty. unfold Save. rewrite Hfp, Hdirty. io_unfold. simpl.
  destruct (file_Sync (File fp) w) as [[err|] w1]; simpl; [done|].
  set (s' := mkSession _ _ _ _).
  destruct (saveHeader_returns s' w1 [EvLock; EvSync (file_Name (File fp)) None])
    as (e & w' & ->).
  done.
Qed.

Lemma Save_dirty_result_on_sync_error s fp w err :
  DataFP s = Some fp → dirty fp = true → (file_Sync (File fp) w).1 = Some err →
  (run (Save s) w).1 = Returns (Some err, s).
Proof.
  intros Hfp Hdirty Herr. unfold Save. rewrite Hfp, Hdirty. io_unfold. simpl.
  destruct (file_Sync (File fp) w) as [e w1]; simpl in *. by subst.
Qed.

Lemma Save_clean_events s fp w :
  DataFP s = Some fp → dirty fp = false →
  (run (Save s) w).2.2 = EvLock :: headerWrite s w ++ [EvUnlock].
Proof.
  intros Hfp Hdirty. unfold Save. rewrite Hfp, Hdirty. io_unfold. simpl.
  destruct (saveHeader_returns s w [EvLock]) as (e & w' & ->). done.
Qed.

(** [Close]: lock, close, then - only when the close went through - the
    header write, then unlock.  It never syncs. *)
Lemma Close_events s fp w :
  DataFP s = Some fp →
  (run (Close s) w).2.2
  = EvLock :: EvClose (file_Name (File fp)) (file_Close (File fp) w).1
      :: match (file_Close (File fp) w).1 with
         | Some _ => []
         | None => headerWrite s (file_Close (File fp) w).2
         end ++ [EvUnlock].
Proof.
  intros Hfp. unfold Close. rewrite Hfp. io_unfold. simpl.
  destruct (file_Close (File fp) w) as [[err|] w1]; simpl; [done|].
  destruct (saveHeader_returns s w1 [EvLock; EvClose (file_Name (File fp)) None])
    as (e & w' & ->).
  done.
Qed.

End SessionFacts.

(** C5 (as the code has it).  [Save] on a session whose data file has
    unflushed writes first syncs the data file and writes the header
    only after the sync has succeeded (a failed sync is returned and no
    header is written); on a clean data file it writes the header
    without a sync.  [Close] does not sync: it closes the data file and
    writes the header only after the close has succeeded.  In both, the
    data-file effect precedes the header write. *)
Theorem header_flush_order `{os : OS} (s : sessionV6) (fp : sessionDataFP) (w : world) :
  DataFP s = Some fp →
  (dirty fp = true →
     (run (Save s) w).2.2
     = EvLock :: EvSync (file_Name (File fp)) (file_Sync (File fp) w).1
         :: match (file_Sync (File fp) w).1 with
            | Some _ => []
            | None => headerWrite s (file_Sync (File fp) w).2
            end ++ [EvUnlock]
     ∧ ∀ err, (file_Sync (File fp) w).1 = Some err →
              (run (Save s) w).1 = Returns (Some err, s))
  ∧ (dirty fp = false →
     (run (Save s) w).2.2 = EvLock :: headerWrite s w ++ [EvUnlock])
  ∧ (run (Close s) w).2.2
    = EvLock :: EvClose (file_Name (File fp)) (file_Close (File fp) w).1
        :: match (file_Close (File fp) w).1 with
           | Some _ => []
           | None => headerWrite s (file_Close (File fp) w).2
           end ++ [EvUnlock]
  ∧ Forall (λ e, isSync e = false) (run (Close s) w).2.2.
Proof.
  intros Hfp. split_and!.
  - intros Hd. split; [by apply Save_dirty_events|].
    intros err. by apply Save_dirty_result_on_sync_error.
  - by apply Save_clean_events.
  - by apply Close_events.
  - rewrite (Close_events s fp w Hfp).
    repeat apply Forall_cons_2; [done..|].
    apply Forall_app_2; [|by repeat constructor].
    destruct (file_Close (File fp) w).1; [constructor|apply headerWrite_no_sync].
Qed.

Lemma header_flush_order_witness :
  (run (Save (exampleSession true)) exampleStore).2.2
  = [EvLock; EvSync (memSessionDataFile "bbbb") None;
     EvSaveHeader (memSessionFile "bbbb") (setVersion "6" zeroHeader) None;
     EvUnlock].
Proof.
  etransitivity.
  - apply (proj1 (proj1 (header_flush_order (os:=memOS) (exampleSession true)
                           (mkDataFP (os:=memOS) true (memSessionDataFile "bbbb"))
                           exampleStore eq_refl) eq_refl)).
  - reflexivity.
Defined.

(** C5, as stated, fails for [Close]: with unflushed writes on the data
    file, [Close] writes the header and no sync is ever issued. *)
Lemma Close_does_not_sync :
  dirty (mkDataFP (os:=memOS) true (memSessionDataFile "bbbb")) = true
  ∧ (run (Close (exampleSession true)) exampleStore).2.2
    = [EvLock; EvClose (memSessionDataFile "bbbb") None;
       EvSaveHeader (memSessionFile "bbbb") (setVersion "6" zeroHeader) None;
       EvUnlock]
  ∧ Exists (λ e, isSaveHeader e = true)
      (run (Close (exampleSession true)) exampleStore).2.2
  ∧ Forall (λ e, isSync e = false)
      (run (Close (exampleSession true)) exampleStore).2.2.
Proof.
  split_and!; [done|done| |].
  - do 2 apply Exists_cons_tl. by apply Exists_cons_hd.
  - by repeat constructor.
Qed.

Section LoadFacts.
Context `{os : OS}.
Implicit Types (s : sessionV6) (w : world) (evs : list event) (sid : string).

(** The events of [loadSessionV6]: a stat, a header load, an open - a
    prefix of these, never a removal. *)
Lemma loadSessionV6_events sid w evs :
  ∃ new, (loadSessionV6 sid (w, evs)).2.2 = evs ++ new
         ∧ Forall (λ e, isRemove e = false) new.
Proof.
  unfold loadSessionV6. io_unfold. simpl.
  destruct (isSessionDirExists w); simpl;
    [|exists []; by rewrite app_nil_r].
  destruct (getSessionFile sid w) as [sessionFile|]; simpl;
    [|exists []; by rewrite app_nil_r].
  destruct (os_Stat sessionFile w); simpl;
    [by exists [EvStat sessionFile]; repeat constructor|].
  destruct (quick_New _); simpl;
    [by exists [EvStat sessionFile]; repeat constructor|].
  destruct (quick_Load sessionFile _ w) as [hdr|]; simpl;
    [|exists [EvStat sessionFile; EvLoadHeader sessionFile];
      split; [by rewrite <-app_assoc|by repeat constructor]].
  destruct (getSessionDataFile sid w) as [dataPath|]; simpl;
    [|exists [EvStat sessionFile; EvLoadHeader sessionFile];
      split; [by rewrite <-app_assoc|by repeat constructor]].
  exists [EvStat sessionFile; EvLoadHeader sessionFile; EvOpen dataPath].
  split; [|by repeat constructor].
  destruct (os_Open dataPath w) as [[f|] w']; simpl; by rewrite <-!app_assoc.
Qed.

(** When every call goes through, [loadSessionV6] answers a session
    carrying the header that [quick.Load] produced: the version tag of
    that header is not looked at. *)
Lemma loadSessionV6_returns sid w evs sessionFile hdr dataPath f w' :
  isSessionDirExists w = true →
  getSessionFile sid w = Ok sessionFile →
  os_Stat sessionFile w = None →
  quick_New (setVersion "5" zeroHeader) = None →
  quick_Load sessionFile (setVersion "5" zeroHeader) w = Ok hdr →
  getSessionDataFile sid w = Ok dataPath →
  os_Open dataPath w = (Ok f, w') →
  loadSessionV6 sid (w, evs)
  = (Returns (Ok (mkSession hdr sid (Some (mkDataFP false f)) false)),
     (w', evs ++ [EvStat sessionFile; EvLoadHeader sessionFile; EvOpen dataPath])).
Proof.
  intros Hdir Hfile Hstat Hnew Hload Hdata Hopen.
  unfold loadSessionV6. io_unfold. simpl.
  rewrite Hdir; simpl. rewrite Hfile; simpl. rewrite Hstat, Hnew; simpl.
  rewrite Hload; simpl. rewrite Hdata; simpl. rewrite Hopen; simpl.
  by rewrite <-!app_assoc.
Qed.

(** One turn of the migration loop on a session that loads and whose
    version is not "6": the header file is removed, then the data file,
    and the loop goes on with the remaining sessions. *)
Lemma migrateLoop_purges sid rest σ s σ1 sessionFile dataPath w2 w3 :
  loadSessionV6 sid σ = (Returns (Ok s), σ1) →
  Version (Header s) ≠ "6" →
  getSessionFile sid σ1.1 = Ok sessionFile →
  getSessionDataFile sid σ1.1 = Ok dataPath →
  os_Remove sessionFile σ1.1 = (None, w2) →
  os_Remove dataPath w2 = (None, w3) →
  migrateLoop (sid :: rest) σ
  = migrateLoop rest
      (w3, σ1.2 ++ [EvPrint ("Removing unsupported session file " +:+ sessionFile
                             +:+ " version " +:+ Version (Header s));
                    EvRemove sessionFile None; EvRemove dataPath None]).
Proof.
  intros Hload Hver Hfile Hdata Hrm1 Hrm2.
  cbn [migrateLoop]. io_unfold. rewrite Hload. simpl.
  case_decide; [done|]. simpl.
  rewrite Hfile. simpl. rewrite Hdata. simpl. rewrite Hrm1. simpl.
  rewrite Hrm2. simpl. by rewrite <-!app_assoc.
Qed.

End LoadFacts.

(** C2 (as the code has it).  [loadSessionV6] does not look at the
    version tag and removes nothing: when the header file is there and
    decodes, it answers an in-memory session carrying the decoded
    header, whatever its version.  Removal of foreign-version sessions
    is the work of the migration pass: for a session that it loads and
    whose version is not "6", [migrateSessionV5ToV6] removes the header
    file, then the data file, and goes on. *)
Theorem load_keeps_foreign_version_migration_purges `{os : OS} :
  (∀ sid w sessionFile hdr dataPath f w',
     isSessionDirExists w = true →
     getSessionFile sid w = Ok sessionFile →
     os_Stat sessionFile w = None →
     quick_New (setVersion "5" zeroHeader) = None →
     quick_Load sessionFile (setVersion "5" zeroHeader) w = Ok hdr →
     getSessionDataFile sid w = Ok dataPath →
     os_Open dataPath w = (Ok f, w') →
     run (loadSessionV6 sid) w
     = (Returns (Ok (mkSession hdr sid (Some (mkDataFP false f)) false)),
        (w', [EvStat sessionFile; EvLoadHeader sessionFile; EvOpen dataPath])))
  ∧ (∀ sid w, Forall (λ e, isRemove e = false) (run (loadSessionV6 sid) w).2.2)
  ∧ (∀ sid rest σ s σ1 sessionFile dataPath w2 w3,
       loadSessionV6 sid σ = (Returns (Ok s), σ1) →
       Version (Header s) ≠ "6" →
       getSessionFile sid σ1.1 = Ok sessionFile →
       getSessionDataFile sid σ1.1 = Ok dataPath →
       os_Remove sessionFile σ1.1 = (None, w2) →
       os_Remove dataPath w2 = (None, w3) →
       migrateLoop (sid :: rest) σ
       = migrateLoop rest
           (w3, σ1.2 ++ [EvPrint ("Removing unsupported session file "
                                  +:+ sessionFile +:+ " version "
                                  +:+ Version (Header s));
                         EvRemove sessionFile None; EvRemove dataPath None])).
Proof.
  split_and!.
  - intros. unfold run. by erewrite loadSessionV6_returns.
  - intros sid w. unfold run.
    destruct (loadSessionV6_events sid w []) as (new & -> & Hnew). done.
  - intros. by eapply migrateLoop_purges.
Qed.

Lemma load_keeps_foreign_version_migration_purges_witness :
  run (loadSessionV6 "aaaa") exampleStore
  = (Returns (Ok (mkSession (setVersion "5" zeroHeader) "aaaa"
                    (Some (mkDataFP (os:=memOS) false (memSessionDataFile "aaaa"))) false)),
     (exampleStore, [EvStat (memSessionFile "aaaa");
                     EvLoadHeader (memSessionFile "aaaa");
                     EvOpen (memSessionDataFile "aaaa")]))
  ∧ migrateLoop ["aaaa"] (exampleStore, [])
    = migrateLoop []
        (mkMemWorld true (delete (memSessionDataFile "aaaa")
                            (delete (memSessionFile "aaaa") (mw_files exampleStore))),
         [EvStat (memSessionFile "aaaa"); EvLoadHeader (memSessionFile "aaaa");
          EvOpen (memSessionDataFile "aaaa")]
         ++ [EvPrint ("Removing unsupported session file " +:+ memSessionFile "aaaa"
                      +:+ " version " +:+ "5");
             EvRemove (memSessionFile "aaaa") None;
             EvRemove (memSessionDataFile "aaaa") None]).
Proof.
  split.
  - apply (proj1 (load_keeps_foreign_version_migration_purges (os:=memOS))
             "aaaa" exampleStore
             (memSessionFile "aaaa") (setVersion "5" zeroHeader)
             (memSessionDataFile "aaaa") (memSessionDataFile "aaaa") exampleStore);
      reflexivity.
  - apply (proj2 (proj2 (load_keeps_foreign_version_migration_purges (os:=memOS)))
             "aaaa" []
             (exampleStore, [])
             (mkSession (setVersion "5" zeroHeader) "aaaa"
                (Some (mkDataFP (os:=memOS) false (memSessionDataFile "aaaa"))) false)
             (exampleStore, [EvStat (memSessionFile "aaaa");
                             EvLoadHeader (memSessionFile "aaaa");
                             EvOpen (memSessionDataFile "aaaa")])
             (memSessionFile "aaaa") (memSessionDataFile "aaaa")
             (mkMemWorld true (delete (memSessionFile "aaaa") (mw_files exampleStore))));
      first [reflexivity | discriminate].
Defined.

(** C2, as stated, fails: loading a stored session whose header says
    version "5" answers a session carrying that header, and both files
    are still there afterwards. *)
Lemma load_returns_foreign_version_session :
  Version (setVersion "5" zeroHeader) ≠ "6"
  ∧ run (loadSessionV6 "aaaa") exampleStore
    = (Returns (Ok (mkSession (setVersion "5" zeroHeader) "aaaa"
                      (Some (mkDataFP (os:=memOS) false (memSessionDataFile "aaaa"))) false)),
       (exampleStore, [EvStat (memSessionFile "aaaa");
                       EvLoadHeader (memSessionFile "aaaa");
                       EvOpen (memSessionDataFile "aaaa")]))
  ∧ memExists (memSessionFile "aaaa") (run (loadSessionV6 "aaaa") exampleStore).2.1 = true
  ∧ memExists (memSessionDataFile "aaaa") (run (loadSessionV6 "aaaa") exampleStore).2.1 = true.
Proof. by split_and!. Qed.

(* --------------------------------------------------------------------- *)
(** ** Signing: what is changed and what is left alone                    *)
(* --------------------------------------------------------------------- *)

Lemma setRawQuery_same r : setRawQuery (RawQuery (url (req r))) r = r.
Proof. by destruct r as [[? [] ? ?] ? ?]. Qed.

Lemma setHeader_same r : setHeader (Header_ (req r)) r = r.
Proof. by destruct r as [[? ? ? ?] ? ?]. Qed.

Section FrameFacts.
Context `{env : SignEnv}.
Implicit Types (σ : signState) (r : Request) (t d : Z).

Lemma PreSignV4_anonymous σ t :
  isAnonymous (config (request σ)) = true →
  PreSignV4 t σ = (Err "presigning cannot be done with anonymous credentials", σ).
Proof. intros Ha. unfold PreSignV4. sign_unfold. by rewrite Ha. Qed.

Lemma PreSignV2_anonymous σ d :
  isAnonymous (config (request σ)) = true →
  PreSignV2 d σ = (Err "presigning cannot be done with anonymous credentials", σ).
Proof. intros Ha. unfold PreSignV2. sign_unfold. by rewrite Ha. Qed.

Lemma PreSignV4_request σ t :
  ∃ q, request (PreSignV4 t σ).2 = setRawQuery q (request σ).
Proof.
  destruct (isAnonymous (config (request σ))) eqn:Ha.
  - rewrite PreSignV4_anonymous by done. eexists. by rewrite setRawQuery_same.
  - unfold PreSignV4, getSigningKey, getCanonicalRequest, getStringToSignV4,
      getSignature. sign_unfold. rewrite Ha. cbn -[insert]. by eexists.
Qed.

Lemma PreSignV2_request σ d :
  ∃ q, request (PreSignV2 d σ).2
       = setRawQuery q
           (setHeader (if isAnonymous (config (request σ))
                       then Header_ (req (request σ))
                       else withDate d (Header_ (req (request σ))))
                      (request σ)).
Proof.
  destruct (isAnonymous (config (request σ))) eqn:Ha.
  - rewrite PreSignV2_anonymous by done. eexists.
    by rewrite setHeader_same, setRawQuery_same.
  - unfold PreSignV2, withDate. sign_unfold. rewrite Ha. simpl.
    case_decide; simpl; eexists; [done|].
    by rewrite setHeader_same.
Qed.

End FrameFacts.

(** C6.  With anonymous credentials both pre-signing operations fail
    with the error "presigning cannot be done with anonymous
    credentials", and the state is the one they were called in: no hash
    has been computed and the request has not been touched. *)
Theorem presign_anonymous_fails `{env : SignEnv} (σ : signState) (t : Z) :
  isAnonymous (config (request σ)) = true →
  PreSignV4 t σ = (Err "presigning cannot be done with anonymous credentials", σ)
  ∧ PreSignV2 t σ = (Err "presigning cannot be done with anonymous credentials", σ)
  ∧ hashes (PreSignV4 t σ).2 = hashes σ
  ∧ hashes (PreSignV2 t σ).2 = hashes σ
  ∧ request (PreSignV4 t σ).2 = request σ
  ∧ request (PreSignV2 t σ).2 = request σ.
Proof.
  intros Ha. rewrite PreSignV4_anonymous, PreSignV2_anonymous by done. done.
Qed.

Lemma presign_anonymous_fails_witness :
  let σ := initialState
             (mkRequest (req (exampleRequest "" [] 3600))
                (mkConfig "" "" "us-east-1" false) 3600) in
  PreSignV4 1000 σ = (Err "presigning cannot be done with anonymous credentials", σ)
  ∧ PreSignV2 1000 σ = (Err "presigning cannot be done with anonymous credentials", σ)
  ∧ hashes (PreSignV4 1000 σ).2 = []
  ∧ hashes (PreSignV2 1000 σ).2 = []
  ∧ request (PreSignV4 1000 σ).2 = request σ
  ∧ request (PreSignV2 1000 σ).2 = request σ.
Proof.
  intros σ. apply (presign_anonymous_fails (env:=symbolicEnv) σ 1000). reflexivity.
Defined.

(** C3 (as the code has it).  [PreSignV4] changes nothing of the
    request but the raw query of its URL; in particular the header is
    the one it was called with.  [PreSignV2] changes the raw query and,
    unless the credentials are anonymous, the header as well: when
    [Get("Date")] is empty it sets a [Date] header. *)
Theorem presign_frame `{env : SignEnv} (σ : signState) (t : Z) :
  (∃ q, request (PreSignV4 t σ).2 = setRawQuery q (request σ))
  ∧ Header_ (req (request (PreSignV4 t σ).2)) = Header_ (req (request σ))
  ∧ (∃ q, request (PreSignV2 t σ).2
          = setRawQuery q
              (setHeader (if isAnonymous (config (request σ))
                          then Header_ (req (request σ))
                          else withDate t (Header_ (req (request σ))))
                         (request σ))).
Proof.
  split_and!.
  - apply PreSignV4_request.
  - destruct (PreSignV4_request σ t) as [q ->]. done.
  - apply PreSignV2_request.
Qed.

(** C3, as stated, fails for [PreSignV2]: on a request without a [Date]
    header and with a non-zero expiry, the header has a [Date] entry
    afterwards. *)
Lemma PreSignV2_adds_Date_header :
  let r := exampleRequest "" [("X-Amz-Meta", ["v"])] 3600 in
  expires r ≠ 0%Z
  ∧ Header_ (req r) !! "Date" = None
  ∧ Header_ (req (request (PreSignV2 (env:=symbolicEnv) 1000 (initialState r)).2)) !! "Date"
    = Some ["Mon, 02 Jan 2006 15:04:05 GMT@1000"]
  ∧ Header_ (req (request (PreSignV2 (env:=symbolicEnv) 1000 (initialState r)).2))
    ≠ Header_ (req r).
Proof.
  intros r. split_and!; [done|done|by vm_compute|].
  intros Heq. apply (f_equal (λ h, h !! "Date")) in Heq. vm_compute in Heq.
  discriminate.
Qed.

Section HeaderSigning.
Context `{env : SignEnv}.
Implicit Types (σ : signState) (r : Request) (t d : Z).

Lemma SignV4_request presign σ t :
  ∃ auth,
    request (SignV4 presign t σ).2
    = setHeader
        (Header_Set
           (Header_Set (Header_ (req (request σ))) "X-Amz-Date"
              (timeFormat iso8601DateFormat t))
           "Authorization" auth)
        (setRawQuery
           (replacePlus (Values_Encode (ParseQuery (RawQuery (url (req (request σ)))))))
           (request σ)).
Proof.
  unfold SignV4, getSigningKey, getCanonicalRequest, getStringToSignV4,
    getSignature. sign_unfold. simpl. by eexists.
Qed.

Lemma SignV4_resources presign σ t :
  resources (SignV4 presign t σ).2 = resources σ.
Proof.
  unfold SignV4, getSigningKey, getCanonicalRequest, getStringToSignV4,
    getSignature. sign_unfold. done.
Qed.

Lemma SignV2_request σ d :
  ∃ auth,
    request (SignV2 d σ).2
    = setHeader (Header_Set (withDate d (Header_ (req (request σ))))
                   "Authorization" auth)
        (request σ).
Proof.
  unfold SignV2, getStringToSignV2, writeCanonicalizedResource, withDate.
  sign_unfold. simpl. case_decide; simpl; by eexists.
Qed.

Lemma SignV2_resources σ d :
  resources (SignV2 d σ).2 = sortStrings (resources σ).
Proof.
  unfold SignV2, getStringToSignV2, writeCanonicalizedResource.
  sign_unfold. simpl. by case_decide.
Qed.

End HeaderSigning.

(** C4 (as the code has it).  [SignV2] leaves the URL, raw query
    included, and the body as they are; of the request it changes the
    header only: a [Date] is set when [Get("Date")] is empty, and
    [Authorization] is set.  (Outside the request it sorts the package
    variable [resourceList].)  [SignV4] leaves scheme, host and path of
    the URL and the body as they are, but overwrites the raw query with
    its re-encoding - parsed, keys sorted, escaped, '+' replaced by
    "%20"; in the header it sets [X-Amz-Date], whether present or not,
    and [Authorization]. *)
Theorem header_signing_frame `{env : SignEnv} (σ : signState) (presign : bool) (t : Z) :
  (∃ auth,
     request (SignV2 t σ).2
     = setHeader (Header_Set (withDate t (Header_ (req (request σ))))
                    "Authorization" auth)
         (request σ))
  ∧ url (req (request (SignV2 t σ).2)) = url (req (request σ))
  ∧ Body (req (request (SignV2 t σ).2)) = Body (req (request σ))
  ∧ resources (SignV2 t σ).2 = sortStrings (resources σ)
  ∧ (∃ auth,
       request (SignV4 presign t σ).2
       = setHeader
           (Header_Set
              (Header_Set (Header_ (req (request σ))) "X-Amz-Date"
                 (timeFormat iso8601DateFormat t))
              "Authorization" auth)
           (setRawQuery
              (replacePlus
                 (Values_Encode (ParseQuery (RawQuery (url (req (request σ)))))))
              (request σ)))
  ∧ url (req (request (SignV4 presign t σ).2))
    = mkURL (Scheme (url (req (request σ)))) (Host (url (req (request σ))))
        (Path (url (req (request σ))))
        (replacePlus (Values_Encode (ParseQuery (RawQuery (url (req (request σ)))))))
  ∧ Body (req (request (SignV4 presign t σ).2)) = Body (req (request σ))
  ∧ resources (SignV4 presign t σ).2 = resources σ.
Proof.
  split_and!.
  - apply SignV2_request.
  - destruct (SignV2_request σ t) as [auth ->]. done.
  - destruct (SignV2_request σ t) as [auth ->]. done.
  - apply SignV2_resources.
  - apply SignV4_request.
  - destruct (SignV4_request presign σ t) as [auth ->]. done.
  - destruct (SignV4_request presign σ t) as [auth ->]. done.
  - apply SignV4_resources.
Qed.

(** C4, as stated, fails for [SignV4]: the raw query "b=1&a=2" of the
    request's URL is "a=2&b=1" after signing. *)
Lemma SignV4_rewrites_raw_query :
  let r := exampleRequest "b=1&a=2" [] 0 in
  RawQuery (url (req r)) = "b=1&a=2"
  ∧ RawQuery (url (req (request (SignV4 (env:=symbolicEnv) false 1000 (initialState r)).2)))
    = "a=2&b=1"
  ∧ url (req (request (SignV4 (env:=symbolicEnv) false 1000 (initialState r)).2))
    ≠ url (req r).
Proof.
  intros r. split_and!; [done|by vm_compute|].
  intros Heq. apply (f_equal RawQuery) in Heq. vm_compute in Heq. discriminate.
Qed.

(* --------------------------------------------------------------------- *)
(** ** Strings and sorting                                                *)
(* --------------------------------------------------------------------- *)

Lemma string_app_assoc (a b c : string) : (a +:+ b) +:+ c = a +:+ (b +:+ c).
Proof.
  induction a as [|x a IH]; [done|].
  change (String x ((a +:+ b) +:+ c) = String x (a +:+ b +:+ c)). by rewrite IH.
Qed.

Lemma string_app_nil_r (a : string) : a +:+ "" = a.
Proof.
  induction a as [|x a IH]; [done|].
  change (String x (a +:+ "") = String x a). by rewrite IH.
Qed.

Lemma sortStrings_sorted l : Sorted String.le (sortStrings l).
Proof. apply (Sorted_merge_sort String.le). Qed.

Lemma sortStrings_perm_self l : sortStrings l ≡ₚ l.
Proof. apply (merge_sort_Permutation String.le). Qed.

(** Sorting forgets the order of its argument. *)
Lemma sortStrings_perm l1 l2 : l1 ≡ₚ l2 → sortStrings l1 = sortStrings l2.
Proof.
  intros Hp. apply (Sorted_unique String.le); [apply sortStrings_sorted..|].
  by rewrite !sortStrings_perm_self.
Qed.

Lemma sortStrings_resourceList : sortStrings resourceList = sortedResourceList.
Proof. by vm_compute. Qed.

(* --------------------------------------------------------------------- *)
(** ** Signature V2: the canonicalized resource                           *)
(* --------------------------------------------------------------------- *)

Section Subresources.
Implicit Types (vals : gmap string (list string)) (rs : list string).

Lemma string_length_pos (v : string) : 0 < String.length v ↔ v ≠ "".
Proof. destruct v; simpl; split; (done || lia). Qed.

Lemma valuePart_eq (v0 : string) :
  (if decide (0 < String.length v0) then "=" +:+ QueryEscape v0 else "")
  = (if decide (v0 = "") then "" else "=" +:+ QueryEscape v0).
Proof.
  destruct (decide (0 < String.length v0)) as [Hl|Hl],
    (decide (v0 = "")) as [He|He]; try done.
  - by apply string_length_pos in Hl.
  - exfalso. apply Hl. by apply string_length_pos.
Qed.

Lemma writeSubresources_later vals n rs :
  writeSubresources vals (S n) rs
  = writeAll ((λ kv, "&" +:+ renderSubresource kv) <$> matchedSubresources vals rs).
Proof.
  revert n. induction rs as [|k rs IH]; intros n; [done|].
  cbn [writeSubresources matchedSubresources omap list_omap].
  destruct (vals !! k) as [[|v0 vs]|] eqn:Hk; [by apply IH| |by apply IH].
  fold (matchedSubresources vals rs).
  cbn [fmap list_fmap writeAll]. rewrite IH. unfold renderSubresource at 2.
  cbn [fst snd]. rewrite valuePart_eq. by rewrite !string_app_assoc.
Qed.

Lemma Join_cons (x : string) (xs : list string) (sep : string) :
  Join (x :: xs) sep = x +:+ writeAll ((λ y, sep +:+ y) <$> xs).
Proof.
  unfold Join. revert x. induction xs as [|y xs IH]; intros x.
  - simpl. by rewrite string_app_nil_r.
  - change (String.concat sep (x :: y :: xs))
      with (x +:+ sep +:+ String.concat sep (y :: xs)).
    rewrite IH. cbn [fmap list_fmap writeAll]. by rewrite string_app_assoc.
Qed.

(** The loop writes '?' before the first match, '&' before every later
    one, each match as [key] or [key=value]. *)
Lemma writeSubresources_shape vals rs :
  writeSubresources vals 0 rs
  = renderSuffix (renderSubresource <$> matchedSubresources vals rs).
Proof.
  induction rs as [|k rs IH]; [done|].
  cbn [writeSubresources matchedSubresources omap list_omap].
  destruct (vals !! k) as [[|v0 vs]|] eqn:Hk; [by apply IH| |by apply IH].
  fold (matchedSubresources vals rs).
  cbn [fmap list_fmap renderSuffix]. rewrite Join_cons, writeSubresources_later.
  rewrite <-list_fmap_compose. unfold renderSubresource.
  cbn [fst snd]. rewrite valuePart_eq. by rewrite !string_app_assoc.
Qed.

Lemma elem_of_matchedSubresources vals rs k v :
  (k, v) ∈ matchedSubresources vals rs ↔
  k ∈ rs ∧ ∃ vs, vals !! k = Some (v :: vs).
Proof.
  unfold matchedSubresources. rewrite list_elem_of_omap. split.
  - intros (k' & Hin & Hm). destruct (vals !! k') as [[|v0 vs]|] eqn:Hk; try done.
    injection Hm as -> ->. eauto.
  - intros (Hin & vs & Hk). exists k. by rewrite Hk.
Qed.

Lemma matchedSubresources_ext vals1 vals2 rs :
  (∀ k, k ∈ rs → vals1 !! k = vals2 !! k) →
  matchedSubresources vals1 rs = matchedSubresources vals2 rs.
Proof.
  induction rs as [|k rs IH]; intros Hagree; [done|].
  unfold matchedSubresources in *. cbn [omap list_omap].
  rewrite (Hagree k) by apply list_elem_of_here.
  rewrite IH; [done|]. intros k' Hk'. apply Hagree. by apply list_elem_of_further.
Qed.

Lemma ParseQuery_empty : ParseQuery "" = ∅.
Proof. done. Qed.

Lemma matchedSubresources_empty rs : matchedSubresources ∅ rs = [].
Proof. induction rs as [|k rs IH]; [done|]. unfold matchedSubresources in *. cbn.
  by rewrite lookup_empty. Qed.

Lemma subresourceSuffix_shape rawQuery rs :
  subresourceSuffix rawQuery rs
  = renderSuffix (renderSubresource <$> matchedSubresources (ParseQuery rawQuery) rs).
Proof.
  unfold subresourceSuffix. case_decide as Hq.
  - apply writeSubresources_shape.
  - rewrite Hq. by rewrite ParseQuery_empty, matchedSubresources_empty.
Qed.

End Subresources.

Lemma writeCanonicalizedResource_result `{env : SignEnv} (σ : signState) :
  (writeCanonicalizedResource σ).1
  = resourcePath (request σ)
      +:+ subresourceSuffix (RawQuery (url (req (request σ))))
            (sortStrings (resources σ)).
Proof. unfold writeCanonicalizedResource. sign_unfold. done. Qed.

(** The package variable stays a rearrangement of the declared list: it
    starts as the declared list and is only ever sorted. *)
Lemma resources_rearranged `{env : SignEnv} (σ : signState) (presign : bool) (t : Z) :
  resources σ ≡ₚ resourceList →
  resources (writeCanonicalizedResource σ).2 ≡ₚ resourceList
  ∧ resources (SignV2 t σ).2 ≡ₚ resourceList
  ∧ resources (SignV4 presign t σ).2 ≡ₚ resourceList
  ∧ resources (PreSignV2 t σ).2 ≡ₚ resourceList
  ∧ resources (PreSignV4 t σ).2 ≡ₚ resourceList.
Proof.
  intros Hp. split_and!.
  - unfold writeCanonicalizedResource. sign_unfold. simpl.
    by rewrite sortStrings_perm_self.
  - by rewrite SignV2_resources, sortStrings_perm_self.
  - by rewrite SignV4_resources.
  - unfold PreSignV2. sign_unfold. simpl.
    destruct (isAnonymous _); [done|]. simpl. by case_decide.
  - unfold PreSignV4, getSigningKey, getCanonicalRequest, getStringToSignV4,
      getSignature. sign_unfold. cbn -[insert]. by destruct (isAnonymous _).
Qed.

(** C8.  The query suffix that [writeCanonicalizedResource] appends to
    the path is made of the parameters of the request's raw query whose
    names are in the resource list, taken in the sorted order of that
    list, each written as [key], or [key=value] when its first value is
    not empty, joined by '&' and preceded by '?'; it is empty when no
    such parameter is there.  A parameter whose name is not in the list
    has no effect on it: two raw queries that agree on the listed names
    give the same suffix.  For the raw query "uploadId=abc&foo=bar" the
    suffix is "?uploadId=abc". *)
Theorem v2_resource_lists_only_subresources `{env : SignEnv} :
  sortStrings resourceList = sortedResourceList
  ∧ (∀ σ, resources σ ≡ₚ resourceList →
       (writeCanonicalizedResource σ).1
       = resourcePath (request σ)
           +:+ renderSuffix
                 (renderSubresource <$>
                    matchedSubresources
                      (ParseQuery (RawQuery (url (req (request σ)))))
                      sortedResourceList))
  ∧ (∀ rawQuery k v,
       (k, v) ∈ matchedSubresources (ParseQuery rawQuery) sortedResourceList ↔
       k ∈ resourceList ∧ ∃ vs, ParseQuery rawQuery !! k = Some (v :: vs))
  ∧ (∀ q1 q2,
       (∀ k, k ∈ resourceList → ParseQuery q1 !! k = ParseQuery q2 !! k) →
       subresourceSuffix q1 sortedResourceList
       = subresourceSuffix q2 sortedResourceList)
  ∧ subresourceSuffix "uploadId=abc&foo=bar" sortedResourceList = "?uploadId=abc".
Proof.
  assert (Hin : ∀ k, k ∈ sortedResourceList ↔ k ∈ resourceList).
  { intros k. rewrite <-sortStrings_resourceList.
    by rewrite sortStrings_perm_self. }
  split_and!.
  - apply sortStrings_resourceList.
  - intros σ Hperm. rewrite writeCanonicalizedResource_result.
    rewrite (sortStrings_perm _ _ Hperm), sortStrings_resourceList.
    by rewrite subresourceSuffix_shape.
  - intros rawQuery k v. by rewrite elem_of_matchedSubresources, Hin.
  - intros q1 q2 Hagree. rewrite !subresourceSuffix_shape.
    f_equal. f_equal. apply matchedSubresources_ext.
    intros k Hk. apply Hagree. by apply Hin.
  - by vm_compute.
Qed.

Lemma v2_resource_lists_only_subresources_witness :
  (writeCanonicalizedResource (env:=symbolicEnv)
     (initialState (exampleRequest "uploadId=abc&foo=bar" [] 0))).1
  = "/object" +:+ renderSuffix
      (renderSubresource <$>
         matchedSubresources (ParseQuery "uploadId=abc&foo=bar") sortedResourceList)
  ∧ subresourceSuffix "uploadId=abc&foo=bar" sortedResourceList
    = subresourceSuffix "uploadId=abc&other=1" sortedResourceList.
Proof.
  split.
  - apply (proj1 (proj2 (v2_resource_lists_only_subresources (env:=symbolicEnv)))
             (initialState (exampleRequest "uploadId=abc&foo=bar" [] 0))).
    reflexivity.
  - apply (proj1 (proj2 (proj2 (proj2
             (v2_resource_lists_only_subresources (env:=symbolicEnv)))))
             "uploadId=abc&foo=bar" "uploadId=abc&other=1").
    intros k Hk. apply list_elem_of_In in Hk. simpl in Hk.
    repeat (destruct Hk as [<-|Hk]; [by vm_compute|]). done.
Defined.

(* --------------------------------------------------------------------- *)
(** ** Signature V4: canonical headers                                    *)
(* --------------------------------------------------------------------- *)

Section CanonicalHeaders.
Implicit Types (es o : list (string * list string)) (host k : string)
  (vv : list string) (vals : gmap string (list string)).

(** Inserting the entries of a list one after the other, later entries
    overwriting earlier ones. *)
Lemma fold_left_insert_list_to_map (l : list (string * list string)) :
  fold_left (λ m e, <[e.1 := e.2]> m) l (∅ : gmap string (list string))
  = list_to_map (reverse l).
Proof.
  induction l as [|e l IH] using rev_ind; [done|].
  rewrite fold_left_app, reverse_snoc. simpl. by rewrite IH.
Qed.

Lemma collectHeaders_fold es hs vals :
  fold_left collectStep es (hs, vals)
  = (hs ++ (signedEntries es).*1,
     fold_left (λ m e, <[e.1 := e.2]> m) (signedEntries es) vals).
Proof.
  revert hs vals. induction es as [|e es IH]; intros hs vals.
  - simpl. by rewrite app_nil_r.
  - cbn [fold_left]. unfold collectStep at 2. unfold signedEntries.
    rewrite filter_cons. destruct (isIgnored e.1) eqn:Hi.
    + rewrite decide_False by done. apply IH.
    + rewrite decide_True by done. rewrite IH. unfold signedEntries.
      cbn [fmap list_fmap fold_left fst snd]. by rewrite <-app_assoc.
Qed.

Lemma collectHeaders_signedEntries es :
  collectHeaders es
  = ((signedEntries es).*1, list_to_map (reverse (signedEntries es))).
Proof.
  unfold collectHeaders. rewrite collectHeaders_fold.
  by rewrite fold_left_insert_list_to_map.
Qed.

Lemma signedStep_fold es hs :
  fold_left signedStep es hs = hs ++ (signedEntries es).*1.
Proof.
  revert hs. induction es as [|e es IH]; intros hs.
  - simpl. by rewrite app_nil_r.
  - cbn [fold_left]. unfold signedStep at 2. unfold signedEntries.
    rewrite filter_cons. destruct (isIgnored e.1) eqn:Hi.
    + rewrite decide_False by done. apply IH.
    + rewrite decide_True by done. rewrite IH. unfold signedEntries.
      cbn [fmap list_fmap fst]. by rewrite <-app_assoc.
Qed.

Lemma writeValues_later (n : nat) vv :
  writeValues (S n) vv = writeAll ((λ v, "," +:+ v) <$> vv).
Proof.
  revert n. induction vv as [|v vv IH]; intros n; [done|].
  cbn [writeValues fmap list_fmap writeAll]. rewrite IH.
  rewrite decide_True by lia. by rewrite string_app_assoc.
Qed.

(** The inner loop joins the values with commas. *)
Lemma writeValues_Join vv : writeValues 0 vv = Join vv ",".
Proof.
  destruct vv as [|v vv]; [done|].
  cbn [writeValues]. by rewrite Join_cons, writeValues_later.
Qed.

Lemma writeHeaderLine_headerLine host vals k :
  writeHeaderLine host vals k = headerLine host k (valuesAt vals k).
Proof. unfold writeHeaderLine, headerLine. by rewrite writeValues_Join. Qed.

(** [getCanonicalHeaders], line by line. *)
Lemma canonicalHeadersOf_lines es host :
  canonicalHeadersOf es host
  = writeAll ((λ k, headerLine host k (lastValues (signedEntries es) k))
                <$> sortStrings ((signedEntries es).*1 ++ ["host"])).
Proof.
  unfold canonicalHeadersOf. rewrite collectHeaders_signedEntries.
  f_equal. apply list_fmap_ext. intros i k _.
  apply writeHeaderLine_headerLine.
Qed.

Lemma signedHeadersOf_names es :
  signedHeadersOf es = Join (sortStrings ((signedEntries es).*1 ++ ["host"])) ";".
Proof. unfold signedHeadersOf. by rewrite signedStep_fold. Qed.

Lemma signedEntries_names es :
  (signedEntries es).*1 = ToLower <$> filter (λ k, isIgnored k = false) es.*1.
Proof.
  unfold signedEntries. induction es as [|e es IH]; [done|].
  cbn [fmap list_fmap]. rewrite !filter_cons. cbn [fst].
  destruct (isIgnored e.1) eqn:Hi.
  - rewrite !decide_False by done. apply IH.
  - rewrite !decide_True by done. cbn [fmap list_fmap fst]. f_equal. apply IH.
Qed.

(** With names distinct after lower-casing, the values written for a
    name are the values of its entry. *)
Lemma lastValues_entry (l : list (string * list string)) k vv :
  NoDup l.*1 → (k, vv) ∈ l → lastValues l k = vv.
Proof.
  intros Hnd Hin. unfold lastValues, valuesAt.
  assert (list_to_map (reverse l) !! k = Some vv) as ->; [|done].
  apply elem_of_list_to_map.
  - by rewrite fmap_reverse, reverse_Permutation.
  - by apply elem_of_reverse.
Qed.

(** The deny-list, exactly. *)
Lemma isIgnored_denyList k :
  isIgnored k = true ↔ CanonicalHeaderKey k ∈ denyList.
Proof.
  unfold isIgnored. rewrite bool_decide_eq_true.
  unfold ignoredHeaders, denyList.
  generalize (CanonicalHeaderKey k). intros c.
  rewrite <-elem_of_dom, dom_list_to_map_L. cbn [fmap list_fmap fst].
  rewrite elem_of_list_to_set. done.
Qed.

End CanonicalHeaders.

(** C7.  [getCanonicalHeaders] leaves out a header exactly when the
    canonical form of its name is one of Authorization, Content-Type,
    Content-Length, User-Agent; the names of the others are put in lower
    case, "host" is added, and the names are sorted; one line is written
    per name: the name, a colon, for "host" the URL's host, the values
    joined by commas, a newline - also when there are no values.  The
    values written for a name are those of its entry when no two
    remaining names coincide in lower case. *)
Theorem canonical_headers_shape `{env : SignEnv} :
  (∀ k, isIgnored k = true ↔ CanonicalHeaderKey k ∈ denyList)
  ∧ (∀ r, getCanonicalHeaders r
          = canonicalHeadersOf (rangeHeader (Header_ (req r))) (Host (url (req r)))
          ∧ rangeHeader (Header_ (req r)) ≡ₚ map_to_list (Header_ (req r)))
  ∧ (∀ es host,
       canonicalHeadersOf es host
       = writeAll ((λ k, headerLine host k (lastValues (signedEntries es) k))
                     <$> sortStrings ((signedEntries es).*1 ++ ["host"]))
       ∧ Sorted String.le (sortStrings ((signedEntries es).*1 ++ ["host"]))
       ∧ sortStrings ((signedEntries es).*1 ++ ["host"])
         ≡ₚ "host" :: (ToLower <$> filter (λ k, isIgnored k = false) es.*1)
       ∧ "host" ∈ sortStrings ((signedEntries es).*1 ++ ["host"]))
  ∧ (∀ es k vv,
       NoDup (signedEntries es).*1 → (k, vv) ∈ es → isIgnored k = false →
       lastValues (signedEntries es) (ToLower k) = vv)
  ∧ (∀ host k vv,
       headerLine host k vv
       = (k +:+ ":" +:+ (if decide (k = "host") then host else "") +:+ Join vv ",")
           +:+ String "010" "")
  ∧ (∀ host k, k ≠ "host" → headerLine host k [] = k +:+ ":" +:+ String "010" "")
  ∧ canonicalHeadersOf
      [("X-Amz-Meta", ["a"; "b"]); ("Content-Type", ["text/plain"]);
       ("user-agent", ["mc"]); ("X-Empty", [])] "example.com"
    = "host:example.com" +:+ String "010" ""
        +:+ "x-amz-meta:a,b" +:+ String "010" ""
        +:+ "x-empty:" +:+ String "010" "".
Proof.
  split_and!.
  - apply isIgnored_denyList.
  - intros r. split; [done|apply rangeHeader_perm].
  - intros es host. split_and!.
    + apply canonicalHeadersOf_lines.
    + apply sortStrings_sorted.
    + rewrite sortStrings_perm_self, signedEntries_names.
      by rewrite (comm (++)).
    + rewrite sortStrings_perm_self. apply elem_of_app. right. by left.
  - intros es k vv Hnd Hin Hi. apply lastValues_entry; [done|].
    unfold signedEntries. apply list_elem_of_fmap. exists (k, vv).
    split; [done|]. by apply list_elem_of_filter.
  - intros host k vv. unfold headerLine. by rewrite !string_app_assoc.
  - intros host k Hk. unfold headerLine. by rewrite decide_False by done.
  - by vm_compute.
Qed.

Lemma canonical_headers_shape_witness :
  lastValues (signedEntries [("X-Amz-Meta", ["a"; "b"]); ("Content-Type", ["t"])])
    (ToLower "X-Amz-Meta") = ["a"; "b"]
  ∧ headerLine "example.com" "x-empty" [] = "x-empty:" +:+ String "010" "".
Proof.
  split.
  - apply (proj1 (proj2 (proj2 (proj2 (canonical_headers_shape (env:=symbolicEnv)))))
             [("X-Amz-Meta", ["a"; "b"]); ("Content-Type", ["t"])]
             "X-Amz-Meta" ["a"; "b"]).
    + vm_compute. apply NoDup_singleton.
    + by left.
    + reflexivity.
  - apply (proj1 (proj2 (proj2 (proj2 (proj2 (proj2
             (canonical_headers_shape (env:=symbolicEnv)))))))
             "example.com" "x-empty").
    discriminate.
Defined.

(* --------------------------------------------------------------------- *)
(** ** Signature V4: letter case of header names                          *)
(* --------------------------------------------------------------------- *)

Section LetterCase.
Implicit Types (c : ascii) (k : string) (es o : list (string * list string)).

Lemma toLowerByte_idemp c : toLowerByte (toLowerByte c) = toLowerByte c.
Proof. by destruct c as [[] [] [] [] [] [] [] []]. Qed.

Lemma toUpperByte_toLowerByte c : toUpperByte (toLowerByte c) = toUpperByte c.
Proof. by destruct c as [[] [] [] [] [] [] [] []]. Qed.

Lemma validHeaderFieldByte_toLowerByte c :
  validHeaderFieldByte (toLowerByte c) = validHeaderFieldByte c.
Proof. by destruct c as [[] [] [] [] [] [] [] []]. Qed.

Lemma canonicalMIMEHeaderKey_ToLower upper k :
  canonicalMIMEHeaderKey upper (ToLower k) = canonicalMIMEHeaderKey upper k.
Proof.
  revert upper. induction k as [|c k IH]; intros upper; [done|].
  cbn [ToLower mapBytes canonicalMIMEHeaderKey].
  fold (ToLower k). rewrite toLowerByte_idemp, toUpperByte_toLowerByte.
  by rewrite IH.
Qed.

Lemma allBytes_valid_ToLower k :
  allBytes validHeaderFieldByte (ToLower k) = allBytes validHeaderFieldByte k.
Proof.
  induction k as [|c k IH]; [done|].
  cbn [ToLower mapBytes allBytes]. fold (ToLower k).
  by rewrite validHeaderFieldByte_toLowerByte, IH.
Qed.

(** A name with a byte that is not a token byte is never ignored. *)
Lemma isIgnored_invalid k :
  allBytes validHeaderFieldByte k = false → isIgnored k = false.
Proof.
  intros Hinv. apply not_true_is_false. intros Hi.
  apply isIgnored_denyList in Hi. unfold CanonicalHeaderKey in Hi.
  rewrite Hinv in Hi. apply list_elem_of_In in Hi. simpl in Hi.
  repeat (destruct Hi as [<-|Hi]; [by vm_compute in Hinv|]). done.
Qed.

(** Whether a header is ignored depends on its name in lower case only. *)
Lemma isIgnored_ToLower k1 k2 :
  ToLower k1 = ToLower k2 → isIgnored k1 = isIgnored k2.
Proof.
  intros Hl.
  assert (Hv : allBytes validHeaderFieldByte k1 = allBytes validHeaderFieldByte k2).
  { by rewrite <-(allBytes_valid_ToLower k1), Hl, allBytes_valid_ToLower. }
  destruct (allBytes validHeaderFieldByte k1) eqn:Hv1.
  - unfold isIgnored, CanonicalHeaderKey. rewrite Hv1, <-Hv.
    by rewrite <-(canonicalMIMEHeaderKey_ToLower true k1), Hl,
      canonicalMIMEHeaderKey_ToLower.
  - rewrite !isIgnored_invalid; done.
Qed.

Lemma signedEntries_sameUpToCase es1 es2 :
  Forall2 sameUpToCase es1 es2 → signedEntries es1 = signedEntries es2.
Proof.
  unfold signedEntries. induction 1 as [|e1 e2 es1 es2 [Hk Hv] _ IH]; [done|].
  rewrite !filter_cons. rewrite <-(isIgnored_ToLower _ _ Hk).
  destruct (isIgnored e1.1).
  - by rewrite !decide_False by done.
  - rewrite !decide_True by done. cbn [fmap list_fmap]. by rewrite Hk, Hv, IH.
Qed.

Lemma signedEntries_perm o es : o ≡ₚ es → signedEntries o ≡ₚ signedEntries es.
Proof. intros Hp. unfold signedEntries. by rewrite Hp. Qed.

Lemma lastValues_perm (l1 l2 : list (string * list string)) k :
  NoDup l1.*1 → l1 ≡ₚ l2 → lastValues l1 k = lastValues l2 k.
Proof.
  intros Hnd Hp. unfold lastValues. f_equal.
  apply list_to_map_proper.
  - by rewrite fmap_reverse, reverse_Permutation.
  - by rewrite !reverse_Permutation.
Qed.

(** The signed-header list does not depend on the enumeration or on the
    letter case of the names; neither does the canonical header block
    when the names that take part are distinct in lower case. *)
Lemma canonical_sameUpToCase es1 es2 o1 o2 host :
  Forall2 sameUpToCase es1 es2 → o1 ≡ₚ es1 → o2 ≡ₚ es2 →
  signedHeadersOf o1 = signedHeadersOf o2
  ∧ (NoDup (signedEntries es1).*1 →
     canonicalHeadersOf o1 host = canonicalHeadersOf o2 host).
Proof.
  intros Hcase Hp1 Hp2.
  pose proof (signedEntries_sameUpToCase _ _ Hcase) as Heq.
  pose proof (signedEntries_perm _ _ Hp1) as Hs1.
  pose proof (signedEntries_perm _ _ Hp2) as Hs2.
  rewrite <-Heq in Hs2.
  assert (Hnames : sortStrings ((signedEntries o1).*1 ++ ["host"])
                   = sortStrings ((signedEntries o2).*1 ++ ["host"])).
  { apply sortStrings_perm. by rewrite Hs1, Hs2. }
  split.
  - by rewrite !signedHeadersOf_names, Hnames.
  - intros Hnd. rewrite !canonicalHeadersOf_lines, Hnames. f_equal.
    apply list_fmap_ext. intros _ k _. f_equal.
    rewrite (lastValues_perm (signedEntries o1) (signedEntries es1)),
      (lastValues_perm (signedEntries o2) (signedEntries es1));
      [done|by rewrite Hs2|done|by rewrite Hs1|done].
Qed.

End LetterCase.

Section LetterCaseRequests.
Context `{env : SignEnv}.
Implicit Types (r : Request) (h : gmap string (list string)) (t : Z).

Lemma getSignedHeaders_caseVariant r h2 :
  caseVariant (Header_ (req r)) h2 →
  getSignedHeaders (setHeader h2 r) = getSignedHeaders r.
Proof.
  intros (es1 & es2 & Hp1 & Hp2 & Hcase). unfold getSignedHeaders. simpl.
  destruct (canonical_sameUpToCase es1 es2 (rangeHeader (Header_ (req r)))
              (rangeHeader h2) "" Hcase) as [Hs _];
    [by rewrite rangeHeader_perm..|].
  by rewrite Hs.
Qed.

Lemma getCanonicalHeaders_caseVariant r h2 :
  caseVariant (Header_ (req r)) h2 →
  NoDup (signedEntries (map_to_list (Header_ (req r)))).*1 →
  getCanonicalHeaders (setHeader h2 r) = getCanonicalHeaders r.
Proof.
  intros (es1 & es2 & Hp1 & Hp2 & Hcase) Hnd. unfold getCanonicalHeaders. simpl.
  destruct (canonical_sameUpToCase es1 es2 (rangeHeader (Header_ (req r)))
              (rangeHeader h2) (Host (url (req r))) Hcase) as [_ Hc];
    [by rewrite rangeHeader_perm..|].
  rewrite Hc; [done|]. by rewrite (signedEntries_perm _ _ Hp1).
Qed.

Lemma getCanonicalRequest_result σ :
  (getCanonicalRequest σ).1 = canonicalRequestOf (request σ).
Proof. unfold getCanonicalRequest, canonicalRequestOf. sign_unfold. done. Qed.

Lemma canonicalRequestOf_caseVariant r h2 :
  caseVariant (Header_ (req r)) h2 →
  NoDup (signedEntries (map_to_list (Header_ (req r)))).*1 →
  getHashedPayload (setHeader h2 r) = getHashedPayload r →
  canonicalRequestOf (setHeader h2 r) = canonicalRequestOf r.
Proof.
  intros Hcase Hnd Hpay. unfold canonicalRequestOf.
  rewrite getCanonicalHeaders_caseVariant, getSignedHeaders_caseVariant, Hpay
    by done.
  done.
Qed.

Lemma Header_Get_Set h key v : Header_Get (Header_Set h key v) key = v.
Proof. unfold Header_Get, Header_Set. by rewrite lookup_insert_eq. Qed.

(** What [SignV4] puts into the [Authorization] header. *)
Lemma SignV4_authorization presign σ t :
  Header_Get (Header_ (req (request (SignV4 presign t σ).2))) "Authorization"
  = Join [authHeader +:+ " Credential="
            +:+ getCredential (AccessKeyID (config (request σ)))
                  (Region (config (request σ))) t;
          "SignedHeaders=" +:+ getSignedHeaders (dated t (request σ));
          "Signature=" +:+ signatureOf (config (request σ))
                             (canonicalRequestOf (dated t (request σ))) t] ", ".
Proof.
  unfold SignV4, getSigningKey, getCanonicalRequest, getStringToSignV4,
    getSignature. sign_unfold. simpl.
  rewrite Header_Get_Set.
  unfold signatureOf, canonicalRequestOf, dated, getSignedHeaders,
    getCanonicalHeaders, getHashedPayload. simpl.
  rewrite !string_app_assoc. done.
Qed.

End LetterCaseRequests.

Lemma caseVariant_of_lists (es1 es2 : list (string * list string)) :
  NoDup es1.*1 → NoDup es2.*1 → Forall2 sameUpToCase es1 es2 →
  caseVariant (list_to_map es1) (list_to_map es2).
Proof.
  intros Hnd1 Hnd2 Hcase. exists es1, es2. split_and!.
  - symmetry. by apply map_to_list_to_map.
  - symmetry. by apply map_to_list_to_map.
  - done.
Qed.

(** C9 (as the code has it).  For two header maps that differ only in
    the letter case of names, [getSignedHeaders] gives the same list,
    whatever the order in which the maps are ranged over, and
    [getCanonicalHeaders] gives the same block provided the names that
    take part are pairwise distinct once in lower case.  [SignV4]
    derives the same signature and sets the same [Authorization] for two
    such requests provided that this relation and this distinctness
    hold of the two headers once [X-Amz-Date] has been set in them, and
    that [getHashedPayload] reads the same payload hash from both. *)
Theorem canonical_headers_case_insensitive `{env : SignEnv} :
  (∀ h1 h2 o1 o2 host,
     caseVariant h1 h2 → o1 ≡ₚ map_to_list h1 → o2 ≡ₚ map_to_list h2 →
     signedHeadersOf o1 = signedHeadersOf o2
     ∧ (NoDup (signedEntries (map_to_list h1)).*1 →
        canonicalHeadersOf o1 host = canonicalHeadersOf o2 host))
  ∧ (∀ r h2,
       caseVariant (Header_ (req r)) h2 →
       getSignedHeaders (setHeader h2 r) = getSignedHeaders r
       ∧ (NoDup (signedEntries (map_to_list (Header_ (req r)))).*1 →
          getCanonicalHeaders (setHeader h2 r) = getCanonicalHeaders r))
  ∧ (∀ σ h2 presign t,
       let r1 := request σ in
       let r2 := setHeader h2 (request σ) in
       caseVariant (Header_ (req (dated t r1))) (Header_ (req (dated t r2))) →
       NoDup (signedEntries (map_to_list (Header_ (req (dated t r1))))).*1 →
       getHashedPayload (dated t r2) = getHashedPayload (dated t r1) →
       signatureOf (config r2) (canonicalRequestOf (dated t r2)) t
       = signatureOf (config r1) (canonicalRequestOf (dated t r1)) t
       ∧ Header_Get (Header_ (req (request
           (SignV4 presign t (mkSignState r2 (resources σ) (hashes σ))).2)))
           "Authorization"
         = Header_Get (Header_ (req (request (SignV4 presign t σ).2)))
             "Authorization").
Proof.
  split_and!.
  - intros h1 h2 o1 o2 host (es1 & es2 & Hp1 & Hp2 & Hcase) Ho1 Ho2.
    destruct (canonical_sameUpToCase es1 es2 o1 o2 host Hcase) as [Hs Hc];
      [by rewrite Ho1|by rewrite Ho2|].
    split; [done|]. intros Hnd. apply Hc.
    by rewrite (signedEntries_perm _ _ Hp1).
  - intros r h2 Hcase. split.
    + by apply getSignedHeaders_caseVariant.
    + intros Hnd. by apply getCanonicalHeaders_caseVariant.
  - intros σ h2 presign t r1 r2 Hcase Hnd Hpay.
    assert (Hr2 : dated t r2 = setHeader (Header_ (req (dated t r2))) (dated t r1))
      by done.
    assert (Hcr : canonicalRequestOf (dated t r2) = canonicalRequestOf (dated t r1)).
    { rewrite Hr2. apply canonicalRequestOf_caseVariant; [done..|].
      by rewrite <-Hr2. }
    assert (Hsh : getSignedHeaders (dated t r2) = getSignedHeaders (dated t r1)).
    { rewrite Hr2. by apply getSignedHeaders_caseVariant. }
    split.
    + by rewrite Hcr.
    + rewrite !SignV4_authorization. cbn [request].
      fold r1 r2. by rewrite Hcr, Hsh.
Qed.

Lemma canonical_headers_case_insensitive_witness :
  let r1 := exampleRequest "" [("X-Amz-Meta", ["v"])] 0 in
  let h2 : gmap string (list string) := list_to_map [("x-amz-meta", ["v"])] in
  (getSignedHeaders (env:=symbolicEnv) (setHeader h2 r1) = getSignedHeaders r1
   ∧ (NoDup (signedEntries (map_to_list (Header_ (req r1)))).*1 →
      getCanonicalHeaders (env:=symbolicEnv) (setHeader h2 r1)
      = getCanonicalHeaders r1))
  ∧ Header_Get (Header_ (req (request
      (SignV4 (env:=symbolicEnv) false 1000 (initialState (setHeader h2 r1))).2)))
      "Authorization"
    = Header_Get (Header_ (req (request
        (SignV4 (env:=symbolicEnv) false 1000 (initialState r1)).2)))
        "Authorization".
Proof.
  intros r1 h2. split.
  - apply (proj1 (proj2 (canonical_headers_case_insensitive (env:=symbolicEnv)))
             r1 h2).
    apply (caseVariant_of_lists [("X-Amz-Meta", ["v"])] [("x-amz-meta", ["v"])]).
    + apply NoDup_singleton.
    + apply NoDup_singleton.
    + by repeat constructor.
  - refine (proj2 (proj2 (proj2 (canonical_headers_case_insensitive (env:=symbolicEnv)))
                     (initialState r1) h2 false 1000%Z _ _ _)).
    + apply (caseVariant_of_lists
               [("X-Amz-Date", ["20060102T150405Z@1000"]); ("X-Amz-Meta", ["v"])]
               [("X-Amz-Date", ["20060102T150405Z@1000"]); ("x-amz-meta", ["v"])]).
      * apply (bool_decide_unpack _). by vm_compute.
      * apply (bool_decide_unpack _). by vm_compute.
      * by repeat constructor.
    + apply (bool_decide_unpack _). by vm_compute.
    + reflexivity.
Defined.

(** C9, as stated, fails.  Two requests that differ only in the letter
    case of the name of one header - "X-Amz-Date" against "x-amz-date" -
    get different signed-header lists and different [Authorization]
    headers from [SignV4], which sets "X-Amz-Date" next to the
    lower-case name.  And with two names of one request equal in lower
    case, the canonical header block depends on the order in which the
    map is ranged over: the two lists below enumerate maps that differ
    only in the case of "Ab" against "ab". *)
Lemma SignV4_name_case_changes_signature :
  let r1 := exampleRequest "" [("X-Amz-Date", ["D"])] 0 in
  let r2 := exampleRequest "" [("x-amz-date", ["D"])] 0 in
  caseVariant (Header_ (req r1)) (Header_ (req r2))
  ∧ getSignedHeaders (env:=symbolicEnv) (dated 1000 r1) = "host;x-amz-date"
  ∧ getSignedHeaders (env:=symbolicEnv) (dated 1000 r2) = "host;x-amz-date;x-amz-date"
  ∧ Header_Get (Header_ (req (request
      (SignV4 (env:=symbolicEnv) false 1000 (initialState r1)).2))) "Authorization"
    ≠ Header_Get (Header_ (req (request
        (SignV4 (env:=symbolicEnv) false 1000 (initialState r2)).2))) "Authorization"
  ∧ caseVariant (list_to_map [("Ab", ["v"]); ("aB", ["w"])])
      (list_to_map [("ab", ["v"]); ("aB", ["w"])])
  ∧ canonicalHeadersOf [("Ab", ["v"]); ("aB", ["w"])] "example.com"
    ≠ canonicalHeadersOf [("aB", ["w"]); ("ab", ["v"])] "example.com".
Proof.
  intros r1 r2. split_and!.
  - apply (caseVariant_of_lists [("X-Amz-Date", ["D"])] [("x-amz-date", ["D"])]);
      [apply NoDup_singleton..|by repeat constructor].
  - by vm_compute.
  - by vm_compute.
  - intros Heq. apply String.eqb_eq in Heq. vm_compute in Heq. discriminate.
  - apply caseVariant_of_lists;
      [apply (bool_decide_unpack _); by vm_compute..|by repeat constructor].
  - intros Heq. apply String.eqb_eq in Heq. vm_compute in Heq. discriminate.
Qed.

(* ===================================================================== *)
(** * Part III: further properties of the code                            *)
(* ===================================================================== *)

(* --------------------------------------------------------------------- *)
(** ** Resume filter and session header                                   *)
(* --------------------------------------------------------------------- *)

Lemma replayFrom_skipCount lastCopied items :
  lastCopied ≠ "" → Forall (λ u, u ≠ "") items →
  replayFrom lastCopied true items
  = Returns (replicate (skipCount lastCopied items) true
             ++ replicate (length items - skipCount lastCopied items) false).
Proof.
  intros Hl Hne. induction Hne as [|u items Hu Hne IH]; [done|].
  cbn [replayFrom skipCount]. destruct (decide (lastCopied = u)) as [<-|Hlu].
  - rewrite isCopied_at by done. rewrite replayFrom_passed by done.
    simpl. by rewrite Nat.sub_0_r.
  - rewrite isCopied_before by done. by rewrite IH.
Qed.

Lemma skipCount_le lastCopied items : skipCount lastCopied items ≤ length items.
Proof.
  induction items as [|u items IH]; [done|]. simpl. case_decide; lia.
Qed.

(** X1.  The answers of the resume filter over any replayed sequence of
    non-empty items are a run of [true] followed by a run of [false]:
    after the first item that is not skipped, no item is skipped, also
    when the checkpoint occurs again later. *)
Theorem resume_filter_answers_shape (lastCopied : string) (items : list string) :
  Forall (λ u, u ≠ "") items →
  skipped lastCopied items ≤ length items
  ∧ replay lastCopied items
    = Returns (replicate (skipped lastCopied items) true
               ++ replicate (length items - skipped lastCopied items) false)
  ∧ (∀ bs i j, replay lastCopied items = Returns bs →
       i ≤ j → bs !! i = Some false → j < length items → bs !! j = Some false).
Proof.
  intros Hne. set (n := skipped lastCopied items).
  assert (Hn : n ≤ length items).
  { unfold n, skipped. case_decide; [lia|apply skipCount_le]. }
  assert (Hr : replay lastCopied items
               = Returns (replicate n true ++ replicate (length items - n) false)).
  { unfold n, skipped, replay, isCopiedFactory. case_decide as Hl.
    - rewrite Hl, replayFrom_fresh by done. simpl. by rewrite Nat.sub_0_r.
    - by apply replayFrom_skipCount. }
  split_and!; [done..|].
  intros bs i j Hbs Hij Hi Hj. rewrite Hr in Hbs. injection Hbs as <-.
  destruct (decide (i < n)) as [Hin|Hin].
  - rewrite lookup_app_l, lookup_replicate_2 in Hi; [done|lia|].
    by rewrite length_replicate.
  - rewrite lookup_app_r by (rewrite length_replicate; lia).
    rewrite length_replicate. apply lookup_replicate_2. lia.
Qed.

Lemma resume_filter_answers_shape_witness :
  replay "b" ["a"; "b"; "a"; "b"] = Returns [true; true; false; false].
Proof.
  refine (proj1 (proj2 (resume_filter_answers_shape "b" ["a"; "b"; "a"; "b"] _))).
  by repeat constructor.
Defined.

(** X2.  A session without data gives a filter that skips nothing; a session
    with data gives a filter that skips the first replayed item,
    whichever item that is. *)
Theorem HasData_decides_first_answer `{os : OS} (s : sessionV6)
    (u : string) (rest : list string) :
  Forall (λ u, u ≠ "") (u :: rest) →
  (HasData s = false →
   replay (LastCopied (Header s)) (u :: rest)
   = Returns (replicate (S (length rest)) false))
  ∧ (HasData s = true →
     ∃ bs, replay (LastCopied (Header s)) (u :: rest) = Returns (true :: bs)).
Proof.
  intros Hne. unfold HasData. split; intros Hd; case_decide as Hl; try done.
  - rewrite Hl. by apply replayFrom_fresh.
  - unfold replay, isCopiedFactory.
    rewrite replayFrom_skipCount by done.
    cbn [skipCount]. case_decide; simpl; eauto.
Qed.

Lemma HasData_decides_first_answer_witness :
  replay (LastCopied (Header (exampleSession false))) ["itemA"; "itemB"]
  = Returns [false; false].
Proof.
  apply (proj1 (HasData_decides_first_answer (os:=memOS) (exampleSession false)
                  "itemA" ["itemB"] ltac:(by repeat constructor))).
  reflexivity.
Defined.

(** X3.  Capturing the global flags into a header and restoring them from it
    gives the flags that were captured; capturing changes no other
    entry of the flag map and no other field; restoring from a header
    that lacks the entries gives four times [false]. *)
Theorem globals_round_trip (g : globals) (h : sessionV6Header) :
  restoreGlobals (setGlobals g h) = g
  ∧ (∀ k, k ∉ ["quiet"; "debug"; "json"; "noColor"] →
          GlobalBoolFlags (setGlobals g h) !! k = GlobalBoolFlags h !! k)
  ∧ setGlobalBoolFlags (GlobalBoolFlags h) (setGlobals g h) = h
  ∧ restoreGlobals zeroHeader = mkGlobals false false false false.
Proof.
  split_and!.
  - destruct g as [q d j n]. unfold restoreGlobals, setGlobals, boolAt. simpl.
    by rewrite !lookup_insert.
  - intros k Hk. unfold setGlobals. simpl.
    rewrite !not_elem_of_cons in Hk. destruct Hk as (? & ? & ? & ? & _).
    by rewrite !lookup_insert_ne.
  - by destruct h.
  - done.
Qed.

Lemma globals_round_trip_witness :
  restoreGlobals (setGlobals (mkGlobals true false true false) zeroHeader)
  = mkGlobals true false true false
  ∧ GlobalBoolFlags (setGlobals (mkGlobals true false true false) zeroHeader) !! "other"
    = GlobalBoolFlags zeroHeader !! "other".
Proof.
  split.
  - apply (proj1 (globals_round_trip (mkGlobals true false true false) zeroHeader)).
  - apply (proj1 (proj2 (globals_round_trip (mkGlobals true false true false)
                           zeroHeader))).
    apply (bool_decide_unpack _). by vm_compute.
Defined.

(* --------------------------------------------------------------------- *)
(** ** Session store: saving twice, deleting                              *)
(* --------------------------------------------------------------------- *)

Section SaveDelete.
Context `{os : OS}.
Implicit Types (s : sessionV6) (w : world) (evs : list event).

Lemma headerWrite_same_header s s' w :
  Header s' = Header s → SessionID s' = SessionID s →
  headerWrite s' w = headerWrite s w.
Proof. intros Hh Hi. unfold headerWrite. by rewrite Hh, Hi. Qed.

(** What a [Save] that reports no error hands back. *)
Lemma Save_success s fp w s' :
  DataFP s = Some fp → (run (Save s) w).1 = Returns (None, s') →
  Header s' = Header s ∧ SessionID s' = SessionID s
  ∧ DataFP s' = Some (mkDataFP false (File fp)).
Proof.
  intros Hfp. unfold Save. rewrite Hfp. io_unfold. simpl.
  destruct (dirty fp) eqn:Hd; simpl.
  - destruct (file_Sync (File fp) w) as [[err|] w1]; simpl; [done|].
    set (s1 := mkSession _ _ _ _).
    destruct (saveHeader_returns s1 w1 [EvLock; EvSync (file_Name (File fp)) None])
      as (e & w' & ->).
    simpl. intros [= -> <-]. done.
  - destruct (saveHeader_returns s w [EvLock]) as (e & w' & ->).
    simpl. intros [= -> <-]. rewrite Hfp. by destruct fp; simplify_eq/=.
Qed.

Lemma Delete_events_data s fp w :
  DataFP s = Some fp →
  (run (Delete s) w).2.2
  = EvLock :: EvClose (file_Name (File fp)) (file_Close (File fp) w).1
      :: EvRemove (file_Name (File fp))
           (os_Remove (file_Name (File fp)) (file_Close (File fp) w).2).1
      :: match (os_Remove (file_Name (File fp)) (file_Close (File fp) w).2).1 with
         | Some _ => []
         | None => headerRemoval s
                     (os_Remove (file_Name (File fp)) (file_Close (File fp) w).2).2
         end ++ [EvUnlock].
Proof.
  intros Hfp. unfold Delete, headerRemoval. rewrite Hfp. io_unfold. simpl.
  destruct (file_Close (File fp) w) as [e0 w1]; simpl.
  destruct (os_Remove (file_Name (File fp)) w1) as [[err|] w2]; simpl; [done|].
  destruct (getSessionFile (SessionID s) w2) as [f|]; simpl; [|done].
  by destruct (os_Remove f w2).
Qed.

Lemma Delete_result_data s fp w :
  DataFP s = Some fp →
  (run (Delete s) w).1
  = Returns
      match (os_Remove (file_Name (File fp)) (file_Close (File fp) w).2) with
      | (Some err, _) => Some err
      | (None, w2) =>
          match getSessionFile (SessionID s) w2 with
          | Ok f => (os_Remove f w2).1
          | Err e => Some e
          end
      end.
Proof.
  intros Hfp. unfold Delete. rewrite Hfp. io_unfold. simpl.
  destruct (file_Close (File fp) w) as [e0 w1]; simpl.
  destruct (os_Remove (file_Name (File fp)) w1) as [[err|] w2]; simpl; [done|].
  destruct (getSessionFile (SessionID s) w2) as [f|]; simpl; [|done].
  by destruct (os_Remove f w2).
Qed.

End SaveDelete.

(** X4.  A [Save] that reports no error hands back the session with the same
    header and a clean data file, and saving that session again issues
    no sync; a [Save] whose sync fails hands back the session as it was,
    still dirty, so that the next [Save] syncs again. *)
Theorem Save_clears_dirty `{os : OS} (s : sessionV6) (fp : sessionDataFP) (w : world) :
  DataFP s = Some fp →
  (∀ s', (run (Save s) w).1 = Returns (None, s') →
     Header s' = Header s
     ∧ DataFP s' = Some (mkDataFP false (File fp))
     ∧ ∀ w', Forall (λ e, isSync e = false) (run (Save s') w').2.2)
  ∧ (∀ err, dirty fp = true → (file_Sync (File fp) w).1 = Some err →
       (run (Save s) w).1 = Returns (Some err, s)
       ∧ ∀ w', ∃ rest, (run (Save s) w').2.2
                       = EvLock :: EvSync (file_Name (File fp))
                                     (file_Sync (File fp) w').1 :: rest).
Proof.
  intros Hfp. split.
  - intros s' Hs'. destruct (Save_success s fp w s' Hfp Hs') as (Hh & Hi & Hd).
    split_and!; [done..|]. intros w'.
    rewrite (Save_clean_events s' _ w' Hd eq_refl).
    apply Forall_cons_2; [done|]. apply Forall_app_2; [|by repeat constructor].
    apply headerWrite_no_sync.
  - intros err Hd Herr. split.
    + by apply (Save_dirty_result_on_sync_error s fp).
    + intros w'. rewrite (Save_dirty_events s fp w' Hfp Hd). eauto.
Qed.

Lemma Save_clears_dirty_witness :
  Header (exampleSession false) = Header (exampleSession true)
  ∧ DataFP (exampleSession false)
    = Some (mkDataFP (os:=memOS) false (memSessionDataFile "bbbb"))
  ∧ ∀ w', Forall (λ e, isSync e = false) (run (Save (exampleSession false)) w').2.2.
Proof.
  apply (proj1 (Save_clears_dirty (os:=memOS) (exampleSession true)
                  (mkDataFP (os:=memOS) true (memSessionDataFile "bbbb"))
                  exampleStore eq_refl) (exampleSession false)).
  reflexivity.
Defined.

(** X5.  [Delete] closes the data file (an error of the close is dropped),
    removes the data file and then the header file; when the removal of
    the data file fails, that error is returned and the header file is
    left in place.  It writes no header and issues no sync. *)
Theorem Delete_order `{os : OS} (s : sessionV6) (fp : sessionDataFP) (w : world) :
  DataFP s = Some fp →
  (run (Delete s) w).2.2
  = EvLock :: EvClose (file_Name (File fp)) (file_Close (File fp) w).1
      :: EvRemove (file_Name (File fp))
           (os_Remove (file_Name (File fp)) (file_Close (File fp) w).2).1
      :: match (os_Remove (file_Name (File fp)) (file_Close (File fp) w).2).1 with
         | Some _ => []
         | None => headerRemoval s
                     (os_Remove (file_Name (File fp)) (file_Close (File fp) w).2).2
         end ++ [EvUnlock]
  ∧ (∀ err, (os_Remove (file_Name (File fp)) (file_Close (File fp) w).2).1 = Some err →
       (run (Delete s) w).1 = Returns (Some err)
       ∧ length (filter (λ e, isRemove e = true) (run (Delete s) w).2.2) = 1)
  ∧ Forall (λ e, isSaveHeader e = false ∧ isSync e = false) (run (Delete s) w).2.2.
Proof.
  intros Hfp. pose proof (Delete_events_data s fp w Hfp) as Hev.
  pose proof (Delete_result_data s fp w Hfp) as Hres.
  split_and!; [done| |].
  - intros err Herr. rewrite Hres, Hev.
    destruct (os_Remove _ _) as [e w2]; simpl in *. subst e. done.
  - rewrite Hev. repeat apply Forall_cons_2; [done..|].
    apply Forall_app_2; [|by repeat constructor].
    destruct (os_Remove _ _).1; [constructor|].
    unfold headerRemoval. destruct (getSessionFile _ _); by repeat constructor.
Qed.

Lemma Delete_order_witness :
  (run (Delete (exampleSession false)) exampleStore).2.2
  = [EvLock; EvClose (memSessionDataFile "bbbb") None;
     EvRemove (memSessionDataFile "bbbb") None;
     EvRemove (memSessionFile "bbbb") None; EvUnlock].
Proof.
  etransitivity.
  - apply (proj1 (Delete_order (os:=memOS) (exampleSession false)
                    (mkDataFP (os:=memOS) false (memSessionDataFile "bbbb"))
                    exampleStore eq_refl)).
  - reflexivity.
Defined.

(* --------------------------------------------------------------------- *)
(** ** Aliases and host styles                                            *)
(* --------------------------------------------------------------------- *)

Section Aliases.
Implicit Types (s u : string) (sep c : ascii).

Lemma string_app_cons c (a b : string) : String c a +:+ b = String c (a +:+ b).
Proof. done. Qed.

Lemma string_app_nil_l (a : string) : "" +:+ a = a.
Proof. done. Qed.

Lemma cutAt_spec sep s :
  containsByte sep s = true →
  s = (cutAt sep s).1 +:+ String sep (cutAt sep s).2
  ∧ containsByte sep (cutAt sep s).1 = false.
Proof.
  induction s as [|c s IH]; [done|]. cbn [containsByte cutAt].
  destruct (Ascii.eqb c sep) eqn:Hc.
  - apply Ascii.eqb_eq in Hc as ->. done.
  - simpl. intros Hs. destruct (IH Hs) as [Heq Hno].
    destruct (cutAt sep s) as [a b]. simpl in *.
    rewrite string_app_cons, <-Heq, Hc. done.
Qed.

Lemma url2Alias_unfold s :
  url2Alias s
  = if containsByte "/" (TrimPrefix s "/")
    then cutAt "/" (TrimPrefix s "/")
    else (TrimPrefix s "/", "").
Proof.
  unfold url2Alias, SplitN2. destruct (containsByte _ _); [|done].
  by destruct (cutAt _ _).
Qed.

Lemma url2Alias_leading_slash s :
  stripPrefix "/" s = None → url2Alias ("/" +:+ s) = url2Alias s.
Proof.
  intros Hs. rewrite !url2Alias_unfold.
  assert (TrimPrefix ("/" +:+ s) "/" = s) as -> by done.
  assert (TrimPrefix s "/" = s) as ->; [|done].
  unfold TrimPrefix. by rewrite Hs.
Qed.

End Aliases.

(** X6.  [url2Alias] drops one leading '/', if there is one, and cuts what
    remains at its first '/': the alias never holds a '/', alias and
    path put together with a '/' between them give back the trimmed
    string, and when there is no '/' the alias is the whole trimmed
    string and the path is empty. *)
Theorem url2Alias_splits_at_first_separator (s : string) :
  containsByte "/" (url2Alias s).1 = false
  ∧ (containsByte "/" (TrimPrefix s "/") = true →
     TrimPrefix s "/" = (url2Alias s).1 +:+ "/" +:+ (url2Alias s).2)
  ∧ (containsByte "/" (TrimPrefix s "/") = false →
     url2Alias s = (TrimPrefix s "/", ""))
  ∧ (stripPrefix "/" s = None → url2Alias ("/" +:+ s) = url2Alias s)
  ∧ url2Alias "/play/bucket/object" = ("play", "bucket/object")
  ∧ url2Alias "play" = ("play", "").
Proof.
  pose proof (url2Alias_leading_slash s) as Hlead.
  rewrite (url2Alias_unfold s) in *.
  destruct (containsByte "/" (TrimPrefix s "/")) eqn:Hc.
  - destruct (cutAt_spec _ _ Hc) as [Heq Hno]. by split_and!.
  - by split_and!.
Qed.

Lemma url2Alias_splits_at_first_separator_witness :
  TrimPrefix "/play/bucket" "/" = (url2Alias "/play/bucket").1 +:+ "/"
                                    +:+ (url2Alias "/play/bucket").2
  ∧ url2Alias "/play" = url2Alias "play".
Proof.
  split.
  - apply (proj1 (proj2 (url2Alias_splits_at_first_separator "/play/bucket"))).
    reflexivity.
  - apply (proj1 (proj2 (proj2 (proj2
             (url2Alias_splits_at_first_separator "play"))))).
    reflexivity.
Defined.

Section Globs.
Implicit Types (pat name a b : string) (c p : ascii).

Lemma globMatch_star pat name :
  globMatch (String "*" pat) name
  = globMatch pat name
    || match name with
       | EmptyString => false
       | String c name' => negb (Ascii.eqb c "/") && globMatch (String "*" pat) name'
       end.
Proof. by destruct name. Qed.

Lemma globMatch_literal p pat name :
  Ascii.eqb p "*" = false →
  globMatch (String p pat) name
  = match name with
    | EmptyString => false
    | String c name' => Ascii.eqb p c && globMatch pat name'
    end.
Proof. intros Hp. cbn [globMatch]. by rewrite Hp. Qed.

Lemma globMatch_star_elim pat name :
  globMatch (String "*" pat) name = true →
  ∃ a b, name = a +:+ b ∧ containsByte "/" a = false ∧ globMatch pat b = true.
Proof.
  induction name as [|c name IH]; rewrite globMatch_star.
  - rewrite orb_false_r. intros Hm. by exists "", "".
  - intros [Hm|[Hc Hm]%andb_true_iff]%orb_true_iff.
    + by exists "", (String c name).
    + destruct (IH Hm) as (a & b & -> & Ha & Hb).
      exists (String c a), b. split_and!; [done| |done].
      cbn [containsByte]. apply negb_true_iff in Hc. by rewrite Hc.
Qed.

Lemma globMatch_star_intro pat a b :
  containsByte "/" a = false → globMatch pat b = true →
  globMatch (String "*" pat) (a +:+ b) = true.
Proof.
  intros Ha Hb. induction a as [|c a IH]; rewrite globMatch_star.
  - rewrite string_app_nil_l, Hb. done.
  - rewrite string_app_cons. cbn [containsByte] in Ha.
    apply orb_false_iff in Ha as [Hc Ha]. rewrite Hc, (IH Ha). simpl.
    apply orb_true_r.
Qed.

(** A run of literal bytes at the head of a pattern matches itself. *)
Lemma globMatch_literals lit pat name :
  containsByte "*" lit = false →
  globMatch (lit +:+ pat) name = true ↔
  ∃ b, name = lit +:+ b ∧ globMatch pat b = true.
Proof.
  revert name. induction lit as [|p lit IH]; intros name Hl.
  - rewrite string_app_nil_l. split; [by exists name|by intros (b & -> & Hb)].
  - cbn [containsByte] in Hl. apply orb_false_iff in Hl as [Hp Hl].
    rewrite string_app_cons, globMatch_literal by done.
    destruct name as [|c name].
    + split; [done|]. by intros (b & Heq & _).
    + rewrite andb_true_iff, Ascii.eqb_eq, (IH name Hl). split.
      * intros [-> (b & -> & Hb)]. by exists b.
      * intros (b & Heq & Hb). rewrite string_app_cons in Heq.
        injection Heq as -> ->. eauto.
Qed.

Lemma globMatch_empty name : globMatch "" name = true ↔ name = "".
Proof. by destruct name. Qed.

Lemma containsByte_app c a b :
  containsByte c (a +:+ b) = containsByte c a || containsByte c b.
Proof.
  induction a as [|x a IH]; [done|].
  rewrite string_app_cons. cbn [containsByte]. by rewrite IH, orb_assoc.
Qed.

End Globs.

(** X7.  [isURLVirtualHostStyle] answers [true] exactly for the strings
    x.s3y.amazonaws.com and x.storage.googleapis.com in which x and y
    hold no '/'.  So it answers [false] for every string with a '/' in
    it - a URL that still carries its scheme or a path among them. *)
Theorem isURLVirtualHostStyle_hosts (hostURL : string) :
  (isURLVirtualHostStyle hostURL = true ↔
   (∃ x y, hostURL = x +:+ ".s3" +:+ y +:+ ".amazonaws.com"
           ∧ containsByte "/" x = false ∧ containsByte "/" y = false)
   ∨ (∃ x, hostURL = x +:+ ".storage.googleapis.com"
           ∧ containsByte "/" x = false))
  ∧ (containsByte "/" hostURL = true → isURLVirtualHostStyle hostURL = false)
  ∧ isURLVirtualHostStyle "bucket.s3.amazonaws.com" = true
  ∧ isURLVirtualHostStyle "https://bucket.s3.amazonaws.com" = false.
Proof.
  assert (Hiff : isURLVirtualHostStyle hostURL = true ↔
   (∃ x y, hostURL = x +:+ ".s3" +:+ y +:+ ".amazonaws.com"
           ∧ containsByte "/" x = false ∧ containsByte "/" y = false)
   ∨ (∃ x, hostURL = x +:+ ".storage.googleapis.com"
           ∧ containsByte "/" x = false)).
  { unfold isURLVirtualHostStyle. rewrite orb_true_iff.
    apply Morphisms_Prop.or_iff_morphism.
    - split.
      + intros (x & b & -> & Hx & Hb)%globMatch_star_elim.
        apply (globMatch_literals ".s3" (String "*" ".amazonaws.com")) in Hb
          as (b' & -> & Hb'); [|done].
        apply globMatch_star_elim in Hb' as (y & b'' & -> & Hy & Hb'').
        apply (globMatch_literals ".amazonaws.com" "") in Hb''
          as (e & -> & ->%globMatch_empty); [|done].
        exists x, y. by rewrite !string_app_nil_r.
      + intros (x & y & -> & Hx & Hy).
        apply globMatch_star_intro; [done|].
        apply (globMatch_literals ".s3" (String "*" ".amazonaws.com")); [done|].
        eexists. split; [done|]. apply globMatch_star_intro; [done|]. done.
    - split.
      + intros (x & b & -> & Hx & Hb)%globMatch_star_elim.
        apply (globMatch_literals ".storage.googleapis.com" "") in Hb
          as (e & -> & ->%globMatch_empty); [|done].
        exists x. by rewrite string_app_nil_r.
      + intros (x & -> & Hx). apply globMatch_star_intro; done. }
  split_and!; [done| |done..].
  intros Hs. apply not_true_is_false. intros Hv. apply Hiff in Hv.
  destruct Hv as [(x & y & -> & Hx & Hy)|(x & -> & Hx)];
    rewrite !containsByte_app, ?Hx, ?Hy in Hs; done.
Qed.

Lemma isURLVirtualHostStyle_hosts_witness :
  isURLVirtualHostStyle "https://bucket.s3.amazonaws.com/object" = false.
Proof.
  apply (proj1 (proj2 (isURLVirtualHostStyle_hosts
                         "https://bucket.s3.amazonaws.com/object"))).
  reflexivity.
Defined.

(* --------------------------------------------------------------------- *)
(** ** Signature V2: canonicalized protocol headers                       *)
(* --------------------------------------------------------------------- *)

Section ProtocolHeaders.
Implicit Types (es o : list (string * list string)) (k : string)
  (vals h : gmap string (list string)).

Lemma protoStep_fold es hs vals :
  fold_left protoStep es (hs, vals)
  = (hs ++ (amzEntries es).*1,
     fold_left (λ m e, <[e.1 := e.2]> m) (amzEntries es) vals).
Proof.
  revert hs vals. induction es as [|e es IH]; intros hs vals.
  - simpl. by rewrite app_nil_r.
  - cbn [fold_left]. unfold protoStep at 2. unfold amzEntries.
    rewrite filter_cons. cbn zeta.
    destruct (HasPrefix (ToLower e.1) "x-amz") eqn:Hp.
    + rewrite decide_True by done. rewrite IH. unfold amzEntries.
      cbn [fmap list_fmap fold_left fst snd]. by rewrite <-app_assoc.
    + rewrite decide_False by done. apply IH.
Qed.

Lemma canonicalizedHeadersOf_lines es :
  canonicalizedHeadersOf es
  = writeAll ((λ k, protoLine k (lastValues (amzEntries es) k))
                <$> sortStrings (amzEntries es).*1).
Proof.
  unfold canonicalizedHeadersOf. rewrite protoStep_fold.
  rewrite fold_left_insert_list_to_map. cbn [app]. f_equal.
  apply list_fmap_ext. intros _ k _.
  unfold writeProtoLine, protoLine, lastValues. by rewrite writeValues_Join.
Qed.

Lemma amzEntries_sameUpToCase es1 es2 :
  Forall2 sameUpToCase es1 es2 → amzEntries es1 = amzEntries es2.
Proof.
  unfold amzEntries. induction 1 as [|e1 e2 es1 es2 [Hk Hv] _ IH]; [done|].
  rewrite !filter_cons. rewrite <-Hk.
  destruct (HasPrefix (ToLower e1.1) "x-amz").
  - rewrite !decide_True by done. cbn [fmap list_fmap]. by rewrite Hk, Hv, IH.
  - by rewrite !decide_False by done.
Qed.

Lemma amzEntries_perm o es : o ≡ₚ es → amzEntries o ≡ₚ amzEntries es.
Proof. intros Hp. unfold amzEntries. by rewrite Hp. Qed.

Lemma canonicalizedHeadersOf_perm o1 o2 :
  amzEntries o1 ≡ₚ amzEntries o2 → NoDup (amzEntries o1).*1 →
  canonicalizedHeadersOf o1 = canonicalizedHeadersOf o2.
Proof.
  intros Hp Hnd. rewrite !canonicalizedHeadersOf_lines.
  rewrite (sortStrings_perm (amzEntries o1).*1 (amzEntries o2).*1)
    by by rewrite Hp.
  f_equal. apply list_fmap_ext. intros _ k _. f_equal.
  by apply lastValues_perm.
Qed.

(** Setting a header whose name does not take part leaves the entries
    that take part as they were, up to their order. *)
Lemma filter_map_to_list_insert (P : string * list string → Prop)
    `{∀ e, Decision (P e)} h k v :
  (∀ x, ¬ P (k, x)) →
  filter P (map_to_list (<[k := v]> h)) ≡ₚ filter P (map_to_list h).
Proof.
  intros HP.
  rewrite <-(insert_delete_eq h k v).
  rewrite map_to_list_insert by apply lookup_delete_eq.
  rewrite filter_cons, decide_False by apply HP.
  destruct (h !! k) as [x|] eqn:Hk.
  - rewrite <-(map_to_list_delete h k x Hk).
    by rewrite (filter_cons _ (k, x)), decide_False by apply HP.
  - by rewrite delete_id.
Qed.


Lemma signedEntries_insert_ignored h k v :
  isIgnored k = true →
  signedEntries (map_to_list (<[k := v]> h)) ≡ₚ signedEntries (map_to_list h).
Proof.
  intros Hk. unfold signedEntries. f_equiv.
  apply filter_map_to_list_insert. intros x. simpl. by rewrite Hk.
Qed.

End ProtocolHeaders.

(** X8.  [writeCanonicalizedHeaders] writes one line per header whose name in
    lower case begins with "x-amz" and none for any other header: the
    names in lower case, sorted, each followed by a colon, its values
    joined by commas and a newline.  Without such headers it writes
    nothing.  When the names that take part are distinct in lower case,
    what is written depends neither on the order in which the header map
    is ranged over nor on the letter case of the names. *)
Theorem v2_canonicalized_headers :
  (∀ es,
     canonicalizedHeadersOf es
     = writeAll ((λ k, protoLine k (lastValues (amzEntries es) k))
                   <$> sortStrings (amzEntries es).*1)
     ∧ Sorted String.le (sortStrings (amzEntries es).*1)
     ∧ sortStrings (amzEntries es).*1
       ≡ₚ ToLower <$> filter (λ k, HasPrefix (ToLower k) "x-amz" = true) es.*1)
  ∧ (∀ es, Forall (λ e, HasPrefix (ToLower e.1) "x-amz" = false) es →
           canonicalizedHeadersOf es = "")
  ∧ (∀ es k vv, NoDup (amzEntries es).*1 → (k, vv) ∈ es →
                HasPrefix (ToLower k) "x-amz" = true →
                lastValues (amzEntries es) (ToLower k) = vv)
  ∧ (∀ es1 es2 o1 o2,
       Forall2 sameUpToCase es1 es2 → o1 ≡ₚ es1 → o2 ≡ₚ es2 →
       NoDup (amzEntries es1).*1 →
       canonicalizedHeadersOf o1 = canonicalizedHeadersOf o2)
  ∧ canonicalizedHeadersOf
      [("X-Amz-Meta-B", ["2"; "3"]); ("Date", ["today"]); ("x-amz-acl", ["private"])]
    = "x-amz-acl:private" +:+ String "010" ""
        +:+ "x-amz-meta-b:2,3" +:+ String "010" "".
Proof.
  split_and!.
  - intros es. split_and!.
    + apply canonicalizedHeadersOf_lines.
    + apply sortStrings_sorted.
    + rewrite sortStrings_perm_self. unfold amzEntries.
      induction es as [|e es IH]; [done|].
      cbn [fmap list_fmap]. rewrite !filter_cons. cbn [fst].
      destruct (HasPrefix (ToLower e.1) "x-amz").
      * rewrite !decide_True by done. cbn [fmap list_fmap fst]. by rewrite IH.
      * by rewrite !decide_False by done.
  - intros es Hall. rewrite canonicalizedHeadersOf_lines.
    assert (amzEntries es = []) as ->; [|done].
    unfold amzEntries. induction Hall as [|e es He _ IH]; [done|].
    by rewrite filter_cons, decide_False by (by rewrite He).
  - intros es k vv Hnd Hin Hk. apply lastValues_entry; [done|].
    unfold amzEntries. apply list_elem_of_fmap. exists (k, vv).
    split; [done|]. by apply list_elem_of_filter.
  - intros es1 es2 o1 o2 Hcase Hp1 Hp2 Hnd.
    apply canonicalizedHeadersOf_perm.
    + rewrite (amzEntries_perm _ _ Hp1), (amzEntries_perm _ _ Hp2).
      by rewrite (amzEntries_sameUpToCase _ _ Hcase).
    + by rewrite (amzEntries_perm _ _ Hp1).
  - by vm_compute.
Qed.

Lemma v2_canonicalized_headers_witness :
  canonicalizedHeadersOf [("Date", ["today"]); ("Content-Type", ["text/plain"])] = ""
  ∧ canonicalizedHeadersOf [("X-Amz-Acl", ["private"]); ("Date", ["today"])]
    = canonicalizedHeadersOf [("Date", ["today"]); ("x-amz-acl", ["private"])].
Proof.
  split.
  - apply (proj1 (proj2 v2_canonicalized_headers)). by repeat constructor.
  - apply (proj1 (proj2 (proj2 (proj2 v2_canonicalized_headers)))
             [("X-Amz-Acl", ["private"]); ("Date", ["today"])]
             [("x-amz-acl", ["private"]); ("Date", ["today"])]).
    + by repeat constructor.
    + done.
    + apply perm_swap.
    + vm_compute. apply NoDup_singleton.
Defined.

(* --------------------------------------------------------------------- *)
(** ** Signature V2: what is signed, and signing again                    *)
(* --------------------------------------------------------------------- *)

Section SignV2Facts.
Context `{env : SignEnv}.
Implicit Types (σ : signState) (r : Request) (d : Z)
  (h : gmap string (list string)).

Lemma SignV2_state σ d :
  SignV2 d σ
  = (tt, mkSignState
           (setHeader
              (Header_Set (withDate d (Header_ (req (request σ)))) "Authorization"
                 (authorizationV2Of (datedV2 d (request σ)) (resources σ)))
              (request σ))
           (sortStrings (resources σ))
           (hashes σ
              ++ [EvHMACSHA1 (SecretAccessKey (config (request σ)))
                    (stringToSignV2Of (datedV2 d (request σ)) (resources σ))])).
Proof.
  unfold SignV2, getStringToSignV2, writeCanonicalizedResource,
    authorizationV2Of, stringToSignV2Of, datedV2, withDate, resourcePath.
  sign_unfold. simpl. by case_decide.
Qed.

Lemma Header_Get_Set_ne h key key' v :
  CanonicalHeaderKey key ≠ CanonicalHeaderKey key' →
  Header_Get (Header_Set h key v) key' = Header_Get h key'.
Proof. intros Hne. unfold Header_Get, Header_Set. by rewrite lookup_insert_ne. Qed.





Lemma withDate_idemp d d' h :
  Header_Get (withDate d h) "Date" ≠ "" → withDate d' (withDate d h) = withDate d h.
Proof. intros Hd. unfold withDate at 1. by rewrite decide_False. Qed.

End SignV2Facts.

(** X9.  [SignV2] computes one HMAC-SHA1, keyed with the secret key, over the
    string to sign of the request with its [Date] ensured, and sets
    [Authorization] to "AWS", the access key, a colon and the base64 of
    that HMAC.  The [Date] that was signed is the [Date] header the
    request carries afterwards. *)
Theorem SignV2_signs_the_dated_request `{env : SignEnv} (σ : signState) (d : Z) :
  Header_Get (Header_ (req (request (SignV2 d σ).2))) "Authorization"
  = "AWS " +:+ AccessKeyID (config (request σ)) +:+ ":"
      +:+ base64EncodeToString
            (hmacSHA1 (SecretAccessKey (config (request σ)))
               (stringToSignV2Of (datedV2 d (request σ)) (resources σ)))
  ∧ hashes (SignV2 d σ).2
    = hashes σ ++ [EvHMACSHA1 (SecretAccessKey (config (request σ)))
                     (stringToSignV2Of (datedV2 d (request σ)) (resources σ))]
  ∧ Header_Get (Header_ (req (request (SignV2 d σ).2))) "Date"
    = Header_Get (Header_ (req (datedV2 d (request σ)))) "Date"
  ∧ (Header_Get (Header_ (req (request σ))) "Date" ≠ "" →
     Header_Get (Header_ (req (request (SignV2 d σ).2))) "Date"
     = Header_Get (Header_ (req (request σ))) "Date").
Proof.
  rewrite SignV2_state. cbn [snd request hashes req Header_ setHeader].
  split_and!.
  - by rewrite Header_Get_Set.
  - done.
  - by rewrite Header_Get_Set_ne by done.
  - intros Hd. rewrite Header_Get_Set_ne by done.
    unfold withDate. by rewrite decide_False.
Qed.

Lemma SignV2_signs_the_dated_request_witness :
  let r := exampleRequest "" [("Date", ["Thu, 01 Jan 2015 00:00:00 GMT"])] 0 in
  Header_Get (Header_ (req (request
    (SignV2 (env:=symbolicEnv) 1000 (initialState r)).2))) "Date"
  = "Thu, 01 Jan 2015 00:00:00 GMT".
Proof.
  intros r.
  apply (proj2 (proj2 (proj2 (SignV2_signs_the_dated_request (env:=symbolicEnv)
                                (initialState r) 1000)))).
  discriminate.
Defined.



(* --------------------------------------------------------------------- *)
(** ** Queries: encoding and parsing back                                 *)
(* --------------------------------------------------------------------- *)

Section QueryRoundTrip.
Implicit Types (s a b r : string) (c sep : ascii) (l pairs : list string)
  (m v : gmap string (list string)).

Lemma QueryUnescape_QueryEscape s : QueryUnescape (QueryEscape s) = Some s.
Proof.
  induction s as [|c s IH]; [done|].
  destruct c as [[] [] [] [] [] [] [] []];
    match goal with
    | |- QueryUnescape (QueryEscape (String ?c s)) = _ =>
        change (String c <$> QueryUnescape (QueryEscape s) = Some (String c s))
    end; by rewrite IH.
Qed.

Lemma QueryUnescape_canonicalEscape s :
  QueryUnescape (canonicalEscape s) = Some s.
Proof.
  unfold canonicalEscape. induction s as [|c s IH]; [done|].
  destruct c as [[] [] [] [] [] [] [] []];
    match goal with
    | |- QueryUnescape (replacePlus (QueryEscape (String ?c s))) = _ =>
        change (String c <$> QueryUnescape (replacePlus (QueryEscape s))
                = Some (String c s))
    end; by rewrite IH.
Qed.

(** Escaped text holds none of the bytes that structure a query. *)
Lemma QueryEscape_plain s :
  containsByte "&" (QueryEscape s) = false
  ∧ containsByte ";" (QueryEscape s) = false
  ∧ containsByte "=" (QueryEscape s) = false.
Proof.
  induction s as [|c s (IH1 & IH2 & IH3)]; [done|].
  destruct c as [[] [] [] [] [] [] [] []]; split_and!;
    first [exact IH1 | exact IH2 | exact IH3].
Qed.

Lemma canonicalEscape_plain s :
  containsByte "&" (canonicalEscape s) = false
  ∧ containsByte ";" (canonicalEscape s) = false
  ∧ containsByte "=" (canonicalEscape s) = false.
Proof.
  unfold canonicalEscape. induction s as [|c s (IH1 & IH2 & IH3)]; [done|].
  destruct c as [[] [] [] [] [] [] [] []]; split_and!;
    first [exact IH1 | exact IH2 | exact IH3].
Qed.

Lemma replacePlus_app a b : replacePlus (a +:+ b) = replacePlus a +:+ replacePlus b.
Proof.
  induction a as [|c a IH]; [done|].
  rewrite string_app_cons. cbn [replacePlus]. rewrite IH.
  destruct (Ascii.eqb c "+"); [|done]. by rewrite string_app_assoc.
Qed.

Lemma replacePlus_writeAll l :
  replacePlus (writeAll l) = writeAll (replacePlus <$> l).
Proof.
  induction l as [|x l IH]; [done|].
  cbn [writeAll fmap list_fmap]. by rewrite replacePlus_app, IH.
Qed.

Lemma replacePlus_Join_amp l :
  replacePlus (Join l "&") = Join (replacePlus <$> l) "&".
Proof.
  destruct l as [|x l]; [done|].
  cbn [fmap list_fmap]. rewrite !Join_cons, replacePlus_app, replacePlus_writeAll.
  rewrite <-!list_fmap_compose. f_equal.
Qed.

Lemma splitAt_nosep sep a : containsByte sep a = false → splitAt sep a = [a].
Proof.
  induction a as [|c a IH]; [done|]. cbn [containsByte splitAt].
  intros [Hc Ha]%orb_false_iff. by rewrite Hc, (IH Ha).
Qed.

Lemma splitAt_app_sep sep a r :
  containsByte sep a = false →
  splitAt sep (a +:+ String sep r) = a :: splitAt sep r.
Proof.
  induction a as [|c a IH].
  - intros _. rewrite string_app_nil_l. cbn [splitAt].
    by rewrite Ascii.eqb_refl.
  - cbn [containsByte]. intros [Hc Ha]%orb_false_iff.
    rewrite string_app_cons. cbn [splitAt]. by rewrite Hc, (IH Ha).
Qed.

Lemma splitAt_Join sep l :
  l ≠ [] → Forall (λ p, containsByte sep p = false) l →
  splitAt sep (Join l (String sep "")) = l.
Proof.
  intros Hl Hall. induction Hall as [|x l Hx Hall IH]; [done|].
  destruct l as [|y l].
  - unfold Join. simpl. by apply splitAt_nosep.
  - unfold Join in *.
    change (String.concat (String sep "") (x :: y :: l))
      with (x +:+ String sep (String.concat (String sep "") (y :: l))).
    rewrite splitAt_app_sep by done. by rewrite IH.
Qed.

Lemma cutAt_app sep a b :
  containsByte sep a = false → cutAt sep (a +:+ String sep b) = (a, b).
Proof.
  induction a as [|c a IH].
  - intros _. rewrite string_app_nil_l. cbn [cutAt]. by rewrite Ascii.eqb_refl.
  - cbn [containsByte]. intros [Hc Ha]%orb_false_iff.
    rewrite string_app_cons. cbn [cutAt]. by rewrite Hc, (IH Ha).
Qed.

Lemma ParseQuery_fold s : ParseQuery s = fold_left parsePair (splitAt "&" s) ∅.
Proof. unfold ParseQuery. by case_decide as Hs; [rewrite Hs|]. Qed.

(** Parsing one pair [key=value] whose two sides are escaped. *)
Lemma parsePair_escaped (esc : string → string) m k x :
  (∀ s, QueryUnescape (esc s) = Some s) →
  (∀ s, containsByte ";" (esc s) = false ∧ containsByte "=" (esc s) = false) →
  parsePair m (esc k +:+ "=" +:+ esc x) = <[k := valuesAt m k ++ [x]]> m.
Proof.
  intros Hun Hplain. unfold parsePair.
  change ("=" +:+ esc x) with (String "=" (esc x)).
  rewrite decide_False; last first.
  { intros Heq. apply (f_equal (containsByte "=")) in Heq.
    rewrite containsByte_app in Heq. cbn [containsByte] in Heq.
    rewrite Ascii.eqb_refl in Heq. simpl in Heq.
    by rewrite orb_true_r in Heq. }
  rewrite containsByte_app. cbn [containsByte].
  rewrite (proj1 (Hplain k)), (proj1 (Hplain x)). simpl.
  rewrite cutAt_app by apply Hplain. by rewrite !Hun.
Qed.

Lemma fold_values (esc : string → string) m k xs :
  (∀ s, QueryUnescape (esc s) = Some s) →
  (∀ s, containsByte ";" (esc s) = false ∧ containsByte "=" (esc s) = false) →
  xs ≠ [] →
  fold_left parsePair ((λ x, esc k +:+ "=" +:+ esc x) <$> xs) m
  = <[k := valuesAt m k ++ xs]> m.
Proof.
  intros Hun Hplain. revert m. induction xs as [|x xs IH]; intros m Hxs; [done|].
  cbn [fmap list_fmap fold_left]. rewrite parsePair_escaped by done.
  destruct xs as [|y xs]; [done|].
  rewrite IH by done. unfold valuesAt at 1. rewrite lookup_insert_eq. simpl.
  by rewrite insert_insert_eq, <-app_assoc.
Qed.

Lemma fold_keys (esc : string → string) v keys m j :
  (∀ s, QueryUnescape (esc s) = Some s) →
  (∀ s, containsByte ";" (esc s) = false ∧ containsByte "=" (esc s) = false) →
  NoDup keys →
  (∀ k, k ∈ keys → m !! k = None ∧ valuesAt v k ≠ []) →
  fold_left parsePair
    (flat_map (λ k, (λ x, esc k +:+ "=" +:+ esc x) <$> valuesAt v k) keys) m !! j
  = if decide (j ∈ keys) then Some (valuesAt v j) else m !! j.
Proof.
  intros Hun Hplain Hnd. revert m.
  induction Hnd as [|k keys Hk Hnd IH]; intros m Hm.
  - cbn [flat_map fold_left].
    destruct (decide (j ∈ [])) as [Hj|]; [by apply elem_of_nil in Hj|done].
  - cbn [flat_map]. rewrite fold_left_app.
    destruct (Hm k) as [Hmk Hvk]; [by left|].
    rewrite fold_values by done.
    rewrite IH; last first.
    { intros k' Hk'. destruct (Hm k') as [Hmk' Hvk']; [by right|].
      split; [|done]. rewrite lookup_insert_ne; [done|]. by intros ->. }
    unfold valuesAt at 2. rewrite Hmk. simpl.
    destruct (decide (j ∈ keys)) as [Hj|Hj].
    + by rewrite decide_True by by right.
    + destruct (decide (j = k)) as [->|Hjk].
      * rewrite decide_True by by left. by rewrite lookup_insert_eq.
      * rewrite decide_False by (by intros [?|?]%elem_of_cons).
        by rewrite lookup_insert_ne.
Qed.

Lemma encoded_pairs_plain (esc : string → string) v keys :
  (∀ s, containsByte "&" (esc s) = false) →
  Forall (λ p, containsByte "&" p = false)
    (flat_map (λ k, (λ x, esc k +:+ "=" +:+ esc x) <$> valuesAt v k) keys).
Proof.
  intros Hplain. apply Forall_forall. intros p Hp.
  apply list_elem_of_In, in_flat_map in Hp as (k & _ & Hp).
  apply list_elem_of_In, list_elem_of_fmap in Hp as (x & -> & _).
  by rewrite !containsByte_app, !Hplain.
Qed.

(** Parsing an encoded query gives back the values that were encoded. *)
Lemma ParseQuery_encoded (esc : string → string) v :
  (∀ s, QueryUnescape (esc s) = Some s) →
  (∀ s, containsByte "&" (esc s) = false ∧ containsByte ";" (esc s) = false
        ∧ containsByte "=" (esc s) = false) →
  nonEmptyLists v →
  ParseQuery
    (Join (flat_map (λ k, (λ x, esc k +:+ "=" +:+ esc x) <$> valuesAt v k)
             (sortStrings (map fst (map_to_list v)))) "&")
  = v.
Proof.
  intros Hun Hplain Hne.
  set (keys := sortStrings (map fst (map_to_list v))).
  set (pairs := flat_map _ keys).
  assert (Hkeys : ∀ k, k ∈ keys ↔ is_Some (v !! k)).
  { intros k. unfold keys. rewrite sortStrings_perm_self.
    change (map fst (map_to_list v)) with ((map_to_list v).*1).
    rewrite list_elem_of_fmap. split.
    - intros ([k' l] & -> & Hin%elem_of_map_to_list). by exists l.
    - intros [l Hl]. exists (k, l). split; [done|]. by apply elem_of_map_to_list. }
  assert (Hfold : fold_left parsePair pairs ∅ = v).
  { apply map_eq. intros j. unfold pairs.
    rewrite (fold_keys esc v keys ∅ j); [| done | intros s; split; apply Hplain | |].
    - destruct (decide (j ∈ keys)) as [Hj|Hj].
      + apply Hkeys in Hj as [l Hl]. unfold valuesAt. by rewrite Hl.
      + rewrite lookup_empty. symmetry. apply eq_None_not_Some.
        by rewrite <-Hkeys.
    - unfold keys. rewrite sortStrings_perm_self. apply NoDup_fst_map_to_list.
    - intros k [l Hl]%Hkeys. split; [apply lookup_empty|].
      unfold valuesAt. rewrite Hl. simpl. by eapply Hne. }
  rewrite ParseQuery_fold. destruct pairs as [|p pairs'] eqn:Hp.
  - by rewrite <-Hfold.
  - rewrite (splitAt_Join "&"); [done|done|].
    rewrite <-Hp. apply encoded_pairs_plain. intros s. apply Hplain.
Qed.

Lemma ParseQuery_Values_Encode v :
  nonEmptyLists v → ParseQuery (Values_Encode v) = v.
Proof.
  intros Hne. unfold Values_Encode.
  apply (ParseQuery_encoded QueryEscape); [|intros s; apply QueryEscape_plain|done].
  apply QueryUnescape_QueryEscape.
Qed.

Lemma replacePlus_Values_Encode v :
  replacePlus (Values_Encode v)
  = Join (flat_map (λ k, (λ x, canonicalEscape k +:+ "=" +:+ canonicalEscape x)
                           <$> valuesAt v k)
            (sortStrings (map fst (map_to_list v)))) "&".
Proof.
  unfold Values_Encode. rewrite replacePlus_Join_amp. f_equal.
  induction (sortStrings (map fst (map_to_list v))) as [|k keys IH]; [done|].
  cbn [flat_map]. rewrite fmap_app, IH. f_equal.
  rewrite <-list_fmap_compose. apply list_fmap_ext. intros _ x _. simpl.
  by rewrite !replacePlus_app.
Qed.

Lemma ParseQuery_canonical v :
  nonEmptyLists v → ParseQuery (replacePlus (Values_Encode v)) = v.
Proof.
  intros Hne. rewrite replacePlus_Values_Encode.
  apply (ParseQuery_encoded canonicalEscape);
    [|intros s; apply canonicalEscape_plain|done].
  apply QueryUnescape_canonicalEscape.
Qed.

Lemma parsePair_nonEmpty m p : nonEmptyLists m → nonEmptyLists (parsePair m p).
Proof.
  intros Hm. unfold parsePair. case_decide; [done|].
  destruct (containsByte ";" p); [done|].
  destruct (cutAt "=" p) as [key value].
  destruct (QueryUnescape key) as [key'|]; [|done].
  destruct (QueryUnescape value) as [value'|]; [|done].
  intros k l. rewrite lookup_insert. case_decide as Hk.
  - intros [= <-]. by destruct (valuesAt m key').
  - apply Hm.
Qed.

Lemma ParseQuery_nonEmpty s : nonEmptyLists (ParseQuery s).
Proof.
  rewrite ParseQuery_fold.
  assert (∀ l m, nonEmptyLists m → nonEmptyLists (fold_left parsePair l m)) as Hf.
  { induction l as [|p l IH]; intros m Hm; [done|].
    simpl. apply IH. by apply parsePair_nonEmpty. }
  apply Hf. intros k l. by rewrite lookup_empty.
Qed.

Lemma insert_nonEmpty v k x :
  nonEmptyLists v → nonEmptyLists (<[k := [x]]> v).
Proof.
  intros Hv k' l. rewrite lookup_insert. case_decide.
  - by intros [= <-].
  - apply Hv.
Qed.

End QueryRoundTrip.

(* --------------------------------------------------------------------- *)
(** ** Signature V4: the canonical query, signing again, pre-signed URLs  *)
(* --------------------------------------------------------------------- *)

Section CanonicalQuery.
Context `{env : SignEnv}.
Implicit Types (σ : signState) (r : Request) (t : Z)
  (h : gmap string (list string)).

Lemma canonical_query_fixed (q : string) :
  replacePlus (Values_Encode (ParseQuery
    (replacePlus (Values_Encode (ParseQuery q)))))
  = replacePlus (Values_Encode (ParseQuery q)).
Proof. by rewrite ParseQuery_canonical by apply ParseQuery_nonEmpty. Qed.


Lemma canonicalRequestOf_setRawQuery r :
  canonicalRequestOf
    (setRawQuery (replacePlus (Values_Encode (ParseQuery (RawQuery (url (req r)))))) r)
  = canonicalRequestOf r.
Proof.
  unfold canonicalRequestOf. cbn [setRawQuery req url RawQuery Method Path].
  by rewrite canonical_query_fixed.
Qed.

Lemma canonicalHeadersOf_entries_perm (o1 o2 : list (string * list string)) host :
  signedEntries o1 ≡ₚ signedEntries o2 → NoDup (signedEntries o1).*1 →
  canonicalHeadersOf o1 host = canonicalHeadersOf o2 host.
Proof.
  intros Hp Hnd. rewrite !canonicalHeadersOf_lines.
  rewrite (sortStrings_perm ((signedEntries o1).*1 ++ ["host"])
             ((signedEntries o2).*1 ++ ["host"])) by by rewrite Hp.
  f_equal. apply list_fmap_ext. intros _ k _. f_equal.
  by apply lastValues_perm.
Qed.

Lemma signedHeadersOf_entries_perm (o1 o2 : list (string * list string)) :
  signedEntries o1 ≡ₚ signedEntries o2 → signedHeadersOf o1 = signedHeadersOf o2.
Proof.
  intros Hp. rewrite !signedHeadersOf_names.
  by rewrite (sortStrings_perm ((signedEntries o1).*1 ++ ["host"])
                ((signedEntries o2).*1 ++ ["host"])) by by rewrite Hp.
Qed.

(** Setting [Authorization] changes neither the signed-header list nor,
    with names distinct in lower case, the canonical request. *)
Lemma getSignedHeaders_Authorization r a :
  getSignedHeaders (setHeader (Header_Set (Header_ (req r)) "Authorization" a) r)
  = getSignedHeaders r.
Proof.
  unfold getSignedHeaders, Header_Set. simpl.
  apply signedHeadersOf_entries_perm.
  rewrite !(signedEntries_perm _ _ (rangeHeader_perm _)).
  by apply signedEntries_insert_ignored.
Qed.

Lemma canonicalRequestOf_Authorization r a :
  NoDup (signedEntries (map_to_list (Header_ (req r)))).*1 →
  canonicalRequestOf (setHeader (Header_Set (Header_ (req r)) "Authorization" a) r)
  = canonicalRequestOf r.
Proof.
  intros Hnd. unfold canonicalRequestOf.
  rewrite getSignedHeaders_Authorization.
  assert (getCanonicalHeaders
            (setHeader (Header_Set (Header_ (req r)) "Authorization" a) r)
          = getCanonicalHeaders r) as ->.
  { unfold getCanonicalHeaders, Header_Set. simpl.
    apply canonicalHeadersOf_entries_perm.
    - rewrite !(signedEntries_perm _ _ (rangeHeader_perm _)).
      by apply signedEntries_insert_ignored.
    - rewrite (signedEntries_perm _ _ (rangeHeader_perm _)).
      by rewrite signedEntries_insert_ignored. }
  assert (getHashedPayload
            (setHeader (Header_Set (Header_ (req r)) "Authorization" a) r)
          = getHashedPayload r) as ->; [|done].
  unfold getHashedPayload. simpl. case_decide; [done|].
  by rewrite Header_Get_Set_ne.
Qed.

Lemma SignV4_state presign σ t :
  (SignV4 presign t σ).2
  = mkSignState
      (setHeader
         (Header_Set (Header_ (req (dated t (request σ)))) "Authorization"
            (authorizationV4Of (dated t (request σ)) t))
         (setRawQuery
            (replacePlus (Values_Encode (ParseQuery (RawQuery (url (req (request σ)))))))
            (dated t (request σ))))
      (resources σ)
      (hashes (SignV4 presign t σ).2).
Proof.
  unfold SignV4, getSigningKey, getCanonicalRequest, getStringToSignV4,
    getSignature, authorizationV4Of, signatureOf, canonicalRequestOf, dated,
    getSignedHeaders, getCanonicalHeaders, getHashedPayload.
  sign_unfold. simpl. rewrite !string_app_assoc. done.
Qed.

End CanonicalQuery.



Section SignV4Again.
Context `{env : SignEnv}.
Implicit Types (σ : signState) (r : Request) (t : Z).

Lemma dated_idemp t r a :
  Header_Set (Header_Set (Header_ (req (dated t r))) "Authorization" a)
    "X-Amz-Date" (timeFormat iso8601DateFormat t)
  = Header_Set (Header_ (req (dated t r))) "Authorization" a.
Proof.
  unfold dated, Header_Set. cbn [setHeader req Header_].
  rewrite (insert_insert_ne _ (CanonicalHeaderKey "X-Amz-Date")) by done.
  by rewrite insert_insert_eq.
Qed.

Lemma authorizationV4Of_signed t r q a :
  NoDup (signedEntries (map_to_list (Header_ (req r)))).*1 →
  q = replacePlus (Values_Encode (ParseQuery (RawQuery (url (req r))))) →
  authorizationV4Of
    (setHeader (Header_Set (Header_ (req r)) "Authorization" a) (setRawQuery q r)) t
  = authorizationV4Of r t.
Proof.
  intros Hnd ->. unfold authorizationV4Of.
  set (r1 := setRawQuery _ r).
  assert (Hh : Header_ (req r) = Header_ (req r1)) by done.
  rewrite Hh, getSignedHeaders_Authorization.
  rewrite canonicalRequestOf_Authorization by by rewrite <-Hh.
  unfold r1. rewrite canonicalRequestOf_setRawQuery. done.
Qed.

End SignV4Again.

(** X12.  Signing again, at the same instant, a request that [SignV4] has
    signed changes nothing of it: the raw query is already in normal
    form and the same [Authorization] is set.  This holds when the names
    of the headers that take part are distinct in lower case once
    [X-Amz-Date] has been set. *)
Theorem SignV4_again_changes_nothing `{env : SignEnv}
    (σ : signState) (presign presign' : bool) (t : Z) :
  NoDup (signedEntries (map_to_list (Header_ (req (dated t (request σ)))))).*1 →
  request (SignV4 presign' t (SignV4 presign t σ).2).2
  = request (SignV4 presign t σ).2
  ∧ resources (SignV4 presign' t (SignV4 presign t σ).2).2 = resources σ.
Proof.
  intros Hnd. rewrite (SignV4_state presign' _ t), (SignV4_state presign σ t).
  cbn [request resources]. split; [|done].
  set (rd := dated t (request σ)).
  set (q1 := replacePlus (Values_Encode (ParseQuery (RawQuery (url (req (request σ))))))).
  set (a := authorizationV4Of rd t).
  set (r1 := setHeader (Header_Set (Header_ (req rd)) "Authorization" a)
               (setRawQuery q1 rd)).
  assert (Hd : dated t r1 = r1).
  { unfold dated at 1. unfold r1 at 1. cbn [setHeader req Header_ setRawQuery].
    unfold rd. rewrite dated_idemp. done. }
  rewrite Hd.
  assert (Hq : replacePlus (Values_Encode (ParseQuery (RawQuery (url (req r1))))) = q1).
  { unfold r1, q1. cbn [setHeader setRawQuery req url RawQuery].
    apply canonical_query_fixed. }
  rewrite Hq.
  assert (Ha : authorizationV4Of r1 t = a).
  { unfold r1. apply authorizationV4Of_signed; [done|]. done. }
  rewrite Ha. unfold r1, Header_Set.
  cbn [setHeader setRawQuery req url Header_ Method Body Scheme Host Path
         config expires].
  by rewrite insert_insert_eq.
Qed.

Lemma SignV4_again_changes_nothing_witness :
  let σ := initialState (exampleRequest "b=1&a=x+y"
                           [("X-Amz-Meta", ["v"]); ("Content-Type", ["text/plain"])] 0) in
  request (SignV4 (env:=symbolicEnv) false 1000
             (SignV4 (env:=symbolicEnv) false 1000 σ).2).2
  = request (SignV4 (env:=symbolicEnv) false 1000 σ).2.
Proof.
  intros σ.
  apply (SignV4_again_changes_nothing (env:=symbolicEnv) σ false false 1000).
  apply (bool_decide_unpack _). by vm_compute.
Defined.

Section PresignedURLs.
Context `{env : SignEnv}.
Implicit Types (σ : signState) (r : Request) (t d : Z).

Lemma presignQueryV4_nonEmpty r t : nonEmptyLists (presignQueryV4 r t).
Proof.
  unfold presignQueryV4.
  repeat apply insert_nonEmpty. apply ParseQuery_nonEmpty.
Qed.

Lemma presignQueryV2_nonEmpty r d : nonEmptyLists (presignQueryV2 r d).
Proof.
  unfold presignQueryV2.
  repeat apply insert_nonEmpty. apply ParseQuery_nonEmpty.
Qed.

Lemma PreSignV4_state σ t :
  isAnonymous (config (request σ)) = false →
  ∃ hs,
    PreSignV4 t σ
    = (Ok (URL_String (url (req (presignedV4 (request σ) t)))),
       mkSignState (presignedV4 (request σ) t) (resources σ) (hashes σ ++ hs))
    ∧ length hs = 6.
Proof.
  intros Ha.
  pose proof (ParseQuery_Values_Encode _ (presignQueryV4_nonEmpty (request σ) t)) as HQ.
  unfold presignedV4, signatureOf, canonicalRequestOf.
  unfold presignQueryV4 in *.
  unfold PreSignV4, getSigningKey, getCanonicalRequest, getStringToSignV4,
    getSignature.
  sign_unfold. rewrite Ha. cbn -[insert]. rewrite <-!(assoc_L (++)).
  rewrite !HQ, !string_app_assoc.
  eexists. split; [reflexivity|done].
Qed.

Lemma PreSignV2_state σ d :
  isAnonymous (config (request σ)) = false →
  PreSignV2 d σ
  = (Ok (URL_String (url (req (presignedV2 (request σ) d)))),
     mkSignState (presignedV2 (request σ) d) (resources σ)
       (hashes σ ++ [EvHMACSHA1 (SecretAccessKey (config (request σ)))
                       (presignStringV2 (request σ) d)])).
Proof.
  intros Ha.
  unfold PreSignV2, presignedV2, presignQueryV2, presignStringV2, accessKeyName,
    datedV2, withDate, resourcePath, virtualHostedPath.
  sign_unfold. rewrite Ha. cbn -[insert].
  destruct (decide (Header_Get _ "Date" = "")); cbn -[insert];
    destruct (decide (Region _ = "google")); cbn -[insert];
    rewrite ?setHeader_same; reflexivity.
Qed.

Lemma canonicalRequestOf_as_in_URL r v :
  nonEmptyLists v →
  canonicalRequestOf (setRawQuery (replacePlus (Values_Encode v)) r)
  = canonicalRequestOf (setRawQuery (Values_Encode v) r).
Proof.
  intros Hv. unfold canonicalRequestOf.
  cbn [setRawQuery req url RawQuery Method Path].
  by rewrite ParseQuery_canonical, ParseQuery_Values_Encode.
Qed.

End PresignedURLs.

(** X13.  [PreSignV4] with credentials answers the URL of the request whose
    raw query is the encoded query values, with '+' written "%20",
    followed by "&X-Amz-Signature=" and the signature; the request is
    otherwise as it was, and six hashes have been computed.  The part
    before the signature parses back to the query values of the request
    with the five X-Amz entries set, and the canonical request that was
    signed is the one of the request with that part as its raw query. *)
Theorem PreSignV4_url `{env : SignEnv} (σ : signState) (t : Z) :
  isAnonymous (config (request σ)) = false →
  (PreSignV4 t σ).1 = Ok (URL_String (url (req (presignedV4 (request σ) t))))
  ∧ request (PreSignV4 t σ).2 = presignedV4 (request σ) t
  ∧ resources (PreSignV4 t σ).2 = resources σ
  ∧ length (hashes (PreSignV4 t σ).2) = length (hashes σ) + 6
  ∧ ParseQuery (replacePlus (Values_Encode (presignQueryV4 (request σ) t)))
    = presignQueryV4 (request σ) t
  ∧ canonicalRequestOf
      (setRawQuery (replacePlus (Values_Encode (presignQueryV4 (request σ) t)))
         (request σ))
    = canonicalRequestOf
        (setRawQuery (Values_Encode (presignQueryV4 (request σ) t)) (request σ)).
Proof.
  intros Ha. destruct (PreSignV4_state σ t Ha) as (hs & -> & Hlen).
  cbn [fst snd request resources hashes]. split_and!; try done.
  - by rewrite length_app, Hlen.
  - apply ParseQuery_canonical, presignQueryV4_nonEmpty.
  - apply canonicalRequestOf_as_in_URL, presignQueryV4_nonEmpty.
Qed.

Lemma PreSignV4_url_witness :
  let σ := initialState (exampleRequest "b=x+y&a=1" [("X-Amz-Meta", ["v"])] 3600) in
  request (PreSignV4 (env:=symbolicEnv) 1000 σ).2
  = presignedV4 (env:=symbolicEnv) (request σ) 1000.
Proof.
  intros σ.
  refine (proj1 (proj2 (PreSignV4_url (env:=symbolicEnv) σ 1000%Z _))).
  reflexivity.
Defined.

(** X14.  [PreSignV2] with credentials sets [Date] when the request has none,
    computes one HMAC-SHA1, of the method, three line feeds, the expiry
    instant, a line feed and the resource path, under the secret key,
    and answers the URL of the request whose raw query is the encoding of
    its query values with the access key, [Expires] and [Signature] set.
    That raw query parses back to exactly these values. *)
Theorem PreSignV2_url `{env : SignEnv} (σ : signState) (d : Z) :
  isAnonymous (config (request σ)) = false →
  PreSignV2 d σ
  = (Ok (URL_String (url (req (presignedV2 (request σ) d)))),
     mkSignState (presignedV2 (request σ) d) (resources σ)
       (hashes σ ++ [EvHMACSHA1 (SecretAccessKey (config (request σ)))
                       (presignStringV2 (request σ) d)]))
  ∧ ParseQuery (RawQuery (url (req (presignedV2 (request σ) d))))
    = presignQueryV2 (request σ) d
  ∧ presignQueryV2 (request σ) d !! "Signature"
    = Some [base64EncodeToString
              (hmacSHA1 (SecretAccessKey (config (request σ)))
                 (presignStringV2 (request σ) d))]
  ∧ presignQueryV2 (request σ) d !! "Expires"
    = Some [FormatInt (wrap64 (d + expires (request σ)))].
Proof.
  intros Ha. split_and!.
  - by apply PreSignV2_state.
  - unfold presignedV2. cbn [setRawQuery req url RawQuery].
    apply ParseQuery_Values_Encode, presignQueryV2_nonEmpty.
  - unfold presignQueryV2. by rewrite lookup_insert_eq.
  - unfold presignQueryV2. rewrite lookup_insert_ne by done.
    by rewrite lookup_insert_eq.
Qed.

Lemma PreSignV2_url_witness :
  let σ := initialState (exampleRequest "b=x+y&a=1" [("X-Amz-Meta", ["v"])] 3600) in
  ParseQuery (RawQuery (url (req (presignedV2 (env:=symbolicEnv) (request σ) 1000))))
  = presignQueryV2 (env:=symbolicEnv) (request σ) 1000.
Proof.
  intros σ.
  refine (proj1 (proj2 (PreSignV2_url (env:=symbolicEnv) σ 1000%Z _))).
  reflexivity.
Defined.

Section TrimSuffixFacts.

Lemma string_rev_app_app a b c :
  String.rev_app (a +:+ b) c = String.rev_app b (String.rev_app a c).
Proof. revert c. induction a as [|x a IH]; intros c; [done|]. apply IH. Qed.

Lemma string_rev_app_rev a c : String.rev_app a c = String.rev a +:+ c.
Proof.
  revert c. unfold String.rev. induction a as [|x a IH]; intros c; [done|].
  cbn [String.rev_app]. rewrite (IH (String x "")), (IH (String x c)).
  by rewrite string_app_assoc.
Qed.

Lemma string_rev_app_distr a b : String.rev (a +:+ b) = String.rev b +:+ String.rev a.
Proof. unfold String.rev at 1. by rewrite string_rev_app_app, string_rev_app_rev. Qed.

Lemma string_rev_involutive a : String.rev (String.rev a) = a.
Proof.
  induction a as [|x a IH]; [done|].
  change (String.rev (String x a)) with (String.rev_app a (String x "")).
  rewrite string_rev_app_rev, string_rev_app_distr, IH. done.
Qed.

Lemma stripPrefix_Some p s r : stripPrefix p s = Some r ↔ s = p +:+ r.
Proof.
  revert s. induction p as [|a p IH]; intros s.
  - cbn. split; [by intros [= ->]|by intros ->].
  - cbn [stripPrefix]. destruct s as [|b s].
    + split; [done|]. by rewrite string_app_cons.
    + rewrite string_app_cons. destruct (Ascii.eqb_spec a b) as [->|Hab].
      * rewrite IH. split; [by intros ->|by intros [= ->]].
      * split; [done|]. intros [= ? ?]. by destruct Hab.
Qed.

Lemma TrimSuffix_spec s x :
  (∃ r, s = r +:+ x ∧ TrimSuffix s x = r)
  ∨ ((∀ r, s ≠ r +:+ x) ∧ TrimSuffix s x = s).
Proof.
  unfold TrimSuffix. destruct (stripPrefix _ _) as [r|] eqn:E.
  - left. exists (String.rev r). split; [|done].
    apply stripPrefix_Some in E.
    rewrite <-(string_rev_involutive s), E, string_rev_app_distr. by rewrite string_rev_involutive.
  - right. split; [|done]. intros r ->.
    rewrite string_rev_app_distr in E.
    assert (stripPrefix (String.rev x) (String.rev x +:+ String.rev r)
            = Some (String.rev r)) as E' by by apply stripPrefix_Some.
    congruence.
Qed.

Lemma TrimSuffix_app b x : TrimSuffix (b +:+ x) x = b.
Proof.
  destruct (TrimSuffix_spec (b +:+ x) x) as [(r & Hr & ->)|[Hn _]].
  - assert (String.rev b = String.rev r) as Hb.
    { apply (f_equal String.rev) in Hr. rewrite !string_rev_app_distr in Hr.
      by apply String.app_inj in Hr. }
    apply (f_equal String.rev) in Hb. by rewrite !string_rev_involutive in Hb.
  - by destruct (Hn b).
Qed.

Lemma firstRegionKey_None rs region :
  firstRegionKey rs region = None ↔ ∀ k v, (k, v) ∈ rs → v ≠ region.
Proof.
  induction rs as [|[k v] rs IH]; cbn [firstRegionKey].
  - split; [|done]. intros _ k v Hin. by apply elem_of_nil in Hin.
  - case_decide as Hv.
    + split; [done|]. intros H. destruct (H k v); [left|done].
    + rewrite IH. split.
      * intros H k' v' [[= -> ->]|Hin]%elem_of_cons; [done|by apply (H k')].
      * intros H k' v' Hin. apply (H k'). by right.
Qed.

Lemma firstRegionKey_Some rs region k :
  firstRegionKey rs region = Some k → (k, region) ∈ rs.
Proof.
  induction rs as [|[k' v] rs IH]; cbn [firstRegionKey]; [done|].
  case_decide as Hv.
  - intros [= ->]. subst. left.
  - intros H. right. by apply IH.
Qed.

End TrimSuffixFacts.

(** X15.  The path that the V2 code signs for a virtual-hosted request: when
    no entry of the region table has the request's region, nothing at
    all, whatever the host and the path are; otherwise the encoding of
    "/", the host without the "." and the table's host for the region at
    its end, and the path; the whole host when it does not end so.  For
    a path-style request it is the encoded path of the URL. *)
Theorem virtual_hosted_resource_path `{env : SignEnv} (r : Request) :
  (isVirtualHostedStyle (config r) = false →
     resourcePath r = getURLEncodedPath (Path (url (req r))))
  ∧ (isVirtualHostedStyle (config r) = true →
     (∀ k v, (k, v) ∈ regions → v ≠ Region (config r)) →
     resourcePath r = "")
  ∧ (isVirtualHostedStyle (config r) = true →
     ∀ k, regionHostSuffix (Region (config r)) = Some k →
       (k, Region (config r)) ∈ regions
       ∧ (∀ bucket, Host (url (req r)) = bucket +:+ "." +:+ k →
            resourcePath r
            = getURLEncodedPath ("/" +:+ bucket +:+ Path (url (req r))))
       ∧ ((∀ bucket, Host (url (req r)) ≠ bucket +:+ "." +:+ k) →
            resourcePath r
            = getURLEncodedPath
                ("/" +:+ Host (url (req r)) +:+ Path (url (req r))))).
Proof.
  unfold resourcePath, virtualHostedPath, regionHostSuffix. split_and!.
  - by intros ->.
  - intros -> Hno. apply firstRegionKey_None in Hno. by rewrite Hno.
  - intros -> k Hk. rewrite Hk. cbn. split_and!.
    + by apply firstRegionKey_Some.
    + intros bucket ->. by rewrite TrimSuffix_app.
    + intros Hn. destruct (TrimSuffix_spec (Host (url (req r))) ("." +:+ k))
        as [(b & Hb & _)|[_ ->]]; [by destruct (Hn b)|done].
Qed.

Lemma virtual_hosted_resource_path_witness :
  resourcePath (env:=symbolicEnv)
    (mkRequest
       (mkHTTPRequest "GET" (mkURL "https" "bucket.example.org" "/object" "") ∅ "")
       (mkConfig "AKID" "SECRET" "eu-west-1" true) 0) = "".
Proof.
  refine (proj1 (proj2 (virtual_hosted_resource_path (env:=symbolicEnv) _)) _ _).
  - reflexivity.
  - intros k v Hin. apply list_elem_of_In in Hin. cbn in Hin.
    destruct Hin as [[= <- <-]|[[= <- <-]|[]]]; cbn; discriminate.
Defined.
